(** * AXI-Lite write channel decoder: the cocotb test bench, in Rocq

    A shallow embedding of [tb/tb_cocotb.py].  The coroutines of the test
    bench are state-passing functions over a [bench] record (simulation time,
    the signals of the design the bench touches, and the two bus-functional
    models it instantiates).  The Python helpers the bench calls
    ([range], [int.to_bytes], [random.getrandbits], [itertools.cycle]) are
    embedded with their Python semantics.  The bus-functional model and the
    design itself are not part of the test bench; they are modelled from the
    specification, each such definition saying so in its comment. *)

From Stdlib Require Import ZArith Strings.Byte.
From stdpp Require Import base option list gmap.

Local Open Scope Z_scope.

(** ** Python helpers *)

Module Py.

(** Exceptions a test coroutine can end with.  [OutOfFuel] is not a Python
    exception: it marks an [await] that did not return within the number of
    clock edges the run was given. *)
Inductive exn : Type :=
  | ValueError
  | OverflowError
  | AssertionError
  | OutOfFuel.

Inductive result (A : Type) : Type :=
  | Ok (a : A)
  | Raise (e : exn).
Arguments Ok {A} a.
Arguments Raise {A} e.

#[global] Instance result_ret : MRet result := fun _ a => Ok a.
#[global] Instance result_bind : MBind result := fun _ _ f r =>
  match r with
  | Ok a => f a
  | Raise e => Raise e
  end.

(** [len(range(start, stop, step))] for a non-zero step. *)
Definition range_len (start stop step : Z) : Z :=
  if 0 <? step
  then (if start <? stop then (stop - start - 1) / step + 1 else 0)
  else (if stop <? start then (start - stop - 1) / (- step) + 1 else 0).

(** [range(start, stop, step)]; a zero step raises [ValueError]. *)
Definition range (start stop step : Z) : result (list Z) :=
  if step =? 0 then Raise ValueError
  else Ok (map (fun i : nat => start + Z.of_nat i * step)
               (seq 0 (Z.to_nat (range_len start stop step)))).

Definition byte_of_Z (z : Z) : byte :=
  match Byte.of_N (Z.to_N (z mod 256)) with
  | Some b => b
  | None => x00
  end.

Definition Z_of_byte (b : byte) : Z := Z.of_N (Byte.to_N b).

Fixpoint le_bytes (n : nat) (x : Z) : list byte :=
  match n with
  | O => []
  | S n' => byte_of_Z (x mod 256) :: le_bytes n' (x / 256)
  end.

(** [x.to_bytes(length, "little")]: unsigned; a negative length raises
    [ValueError], a value that does not fit raises [OverflowError]. *)
Definition to_bytes (x length : Z) : result (list byte) :=
  if length <? 0 then Raise ValueError
  else if (x <? 0) || (256 ^ length <=? x) then Raise OverflowError
  else Ok (le_bytes (Z.to_nat length) x).

(** [int.from_bytes(bs, "little")], to say what [to_bytes] encodes. *)
Fixpoint from_bytes (bs : list byte) : Z :=
  match bs with
  | [] => 0
  | b :: bs' => Z_of_byte b + 256 * from_bytes bs'
  end.

(** The state of the [random] module: the bits it will hand out, as a tape
    read from position [pos].  Every run of the generator is some tape. *)
Record rng : Type := Rng { tape : nat -> bool; pos : nat }.

(** [random.getrandbits(k)] *)
Fixpoint getrandbits (k : nat) (r : rng) : Z * rng :=
  match k with
  | O => (0, r)
  | S k' =>
      let '(v, r') := getrandbits k' r in
      (2 * v + Z.b2z (tape r' (pos r')), Rng (tape r') (S (pos r')))
  end.

(** [bool(v)] of an int *)
Definition bool_of_int (v : Z) : bool := negb (v =? 0).

(** [itertools.cycle]: the iterator first hands out the items of its
    argument, saving each; once the argument is exhausted it replays the
    saved items, [index] wrapping to 0 at the end of [saved].  With nothing
    saved, [next] raises StopIteration ([None]). *)
Record cycle_iter (A : Type) : Type := CycleIter {
  source : list A;
  saved : list A;
  index : nat
}.
Arguments CycleIter {A} source saved index.
Arguments source {A} c.
Arguments saved {A} c.
Arguments index {A} c.

Definition cycle {A} (iterable : list A) : cycle_iter A :=
  CycleIter iterable [] 0.

Definition next {A} (it : cycle_iter A) : option (A * cycle_iter A) :=
  match source it with
  | item :: rest => Some (item, CycleIter rest (saved it ++ [item]) 0)
  | [] =>
      match saved it !! index it with
      | None => None
      | Some item =>
          let i := S (index it) in
          Some (item, CycleIter [] (saved it)
                        (if (length (saved it) <=? i)%nat then 0%nat else i))
      end
  end.

(** The iterator after [n] calls of [next] (unchanged once exhausted). *)
Fixpoint advance {A} (n : nat) (it : cycle_iter A) : cycle_iter A :=
  match n with
  | O => it
  | S n' =>
      match next it with
      | Some (_, it') => advance n' it'
      | None => it
      end
  end.

(** The item the [i]-th call of [next] returns, counting from 0. *)
Definition item_at {A} (it : cycle_iter A) (i : nat) : option A :=
  fst <$> next (advance i it).

End Py.

Import Py.

(** ** The test bench: [random_bool] *)

(** The loop of [random_bool]: [count] times
    [temp.append(bool(random.getrandbits(1)))]. *)
Fixpoint random_bool_loop (count : nat) (temp : list bool) (r : rng)
  : list bool * rng :=
  match count with
  | O => (temp, r)
  | S count' =>
      let '(v, r') := getrandbits 1 r in
      random_bool_loop count' (temp ++ [bool_of_int v]) r'
  end.

(** The list [temp] that [random_bool] builds before it returns. *)
Definition random_bool_temp (r : rng) : list bool * rng :=
  random_bool_loop 256 [] r.

Definition random_bool (r : rng) : cycle_iter bool * rng :=
  let '(temp, r') := random_bool_temp r in
  (cycle temp, r').

(** ** Signals and the memory region *)

(** A signal value: driven low, driven high, or undriven (high impedance),
    what cocotb prints as [0], [1] and [z]. *)
Inductive Logic : Type := L0 | L1 | LZ.

#[global] Instance Logic_eq_dec : EqDecision Logic.
Proof. solve_decision. Defined.

Definition Logic_of_bool (v : bool) : Logic := if v then L1 else L0.

#[global] Instance byte_eq_dec : EqDecision byte := Byte.byte_eq_dec.

(** Modelled from the spec: the memory region behind [AxiLiteRam], a class
    of cocotbext.axi whose source is not in the repository.  A mapping from
    byte address to byte value, bounded to [mem_size] bytes; a byte never
    written reads as zero. *)
Record Memory : Type := Mem {
  mem_size : Z;
  mem_cells : gmap Z byte
}.

(** Modelled from the spec: the bounds check of [AxiLiteRam]'s [read] and
    [write], [addr .. addr + len] against the size of the region. *)
Definition in_bounds (m : Memory) (addr len : Z) : bool :=
  (0 <=? addr) && (0 <=? len) && (addr + len <=? mem_size m).

(** The bytes at [addr], [addr + 1], ... of the mapping, zero where it has
    none; and the mapping with the bytes of [data] put at [addr],
    [addr + 1], ... *)
Fixpoint read_cells (cells : gmap Z byte) (addr : Z) (len : nat) : list byte :=
  match len with
  | O => []
  | S len' => default x00 (cells !! addr) :: read_cells cells (addr + 1) len'
  end.

Fixpoint write_cells (cells : gmap Z byte) (addr : Z) (data : list byte)
  : gmap Z byte :=
  match data with
  | [] => cells
  | b :: data' => write_cells (<[addr := b]> cells) (addr + 1) data'
  end.

(** Modelled from the spec: [AxiLiteRam.read(addr, length)], the direct
    inspection of the store, whose source is not in the repository; [None]
    is OUT_OF_RANGE. *)
Definition mem_read (m : Memory) (addr len : Z) : option (list byte) :=
  if in_bounds m addr len
  then Some (read_cells (mem_cells m) addr (Z.to_nat len))
  else None.

(** Modelled from the spec: the [write(addr, bytes)] of the slave model
    behind [AxiLiteRam], bounds-checked as [read] is. *)
Definition mem_write (m : Memory) (addr : Z) (data : list byte)
  : option Memory :=
  if in_bounds m addr (Z.of_nat (length data))
  then Some (Mem (mem_size m) (write_cells (mem_cells m) addr data))
  else None.

(** ** The protocol engine

    The bench imports [AxiLiteMaster] and [AxiLiteRam] from cocotbext.axi and
    drives the decoder between them; neither the library nor the HDL of the
    decoder is among the sources.  What follows is the protocol engine of the
    specification: channels with valid, ready and payload, stall generators,
    the state machine of a write, and the edge-by-edge handshake. *)

(** Modelled from the spec: the response code the B channel of the missing
    bus-functional model carries. *)
Inductive resp : Type := OKAY | SLVERR | DECERR.

(** Modelled from the spec: the state machine of a channel pair (AW/W then
    B) of the missing bus-functional model. *)
Inductive chan_state : Type :=
  | IDLE
  | REQUEST_SENT
  | REQUEST_ACCEPTED
  | RESPONSE_PENDING
  | DONE.

#[global] Instance chan_state_eq_dec : EqDecision chan_state.
Proof. solve_decision. Defined.

(** Modelled from the spec: one side's end of a channel of the missing
    bus-functional model ([write_if.aw_channel] and the like).  On the sending
    side [payload] is the item offered (valid is asserted while there is
    one); on the receiving side it is the item accepted and not yet used
    (ready is asserted while there is none).  A stall generator attached to
    the end forces the signal that end drives low in the cycles for which it
    yielded [true]. *)
Record channel (P : Type) : Type := Channel {
  payload : option P;
  pause_generator : option (cycle_iter bool);
  pause : bool
}.
Arguments Channel {P} payload pause_generator pause.
Arguments payload {P} c.
Arguments pause_generator {P} c.
Arguments pause {P} c.

(** A channel end that holds nothing and has no stall generator. *)
Definition idle_channel {P} : channel P := Channel None None false.

Definition has_item {P} (c : channel P) : bool :=
  match payload c with Some _ => true | None => false end.

(** Modelled from the spec: the valid a sending end drives and the ready a
    receiving end drives, in the missing bus-functional model: low while the
    end is paused. *)
Definition valid {P} (c : channel P) : bool := has_item c && negb (pause c).

Definition ready {P} (c : channel P) : bool :=
  negb (has_item c) && negb (pause c).

(** Modelled from the spec: [set_pause_generator(sequence)] of a channel of
    the missing bus-functional model. *)
Definition set_pause_generator {P} (g : cycle_iter bool) (c : channel P)
  : channel P :=
  Channel (payload c) (Some g) (pause c).

(** Modelled from the spec: [clear()] of a channel of the missing
    bus-functional model: it deasserts valid and drops the pending payload. *)
Definition clear {P} (c : channel P) : channel P :=
  Channel None (pause_generator c) (pause c).

(** The end with [p] put in it. *)
Definition offer {P} (p : P) (c : channel P) : channel P :=
  Channel (Some p) (pause_generator c) (pause c).

(** Modelled from the spec: the stall injection of the missing
    bus-functional model.  Each clock edge consumes one element of an
    attached stall generator, which says whether the end is paused for that
    cycle; with no generator, or an exhausted one, it is not. *)
Definition consume_pause {P} (c : channel P) : channel P :=
  match pause_generator c with
  | None => Channel (payload c) None false
  | Some g =>
      match next g with
      | Some (v, g') => Channel (payload c) (Some g') v
      | None => Channel (payload c) (Some g) false
      end
  end.

(** Modelled from the spec: the handshake of the missing bus-functional
    model.  The item moves from the sending end to the receiving end on an
    edge at which valid and ready are both high; [f] is what the decoder does
    to the item on the way. *)
Definition handshake {P} (src snk : channel P) : bool :=
  valid src && ready snk.

Definition transfer {P} (f : P -> P) (src snk : channel P)
  : channel P * channel P :=
  if handshake src snk
  then (clear src,
        Channel (f <$> payload src) (pause_generator snk) (pause snk))
  else (src, snk).

(** Modelled from the spec: the three channels of the write interface
    ([write_if]) of the missing bus-functional model. *)
Record write_if : Type := WriteIf {
  aw_channel : channel Z;
  w_channel : channel (list byte);
  b_channel : channel resp
}.

Definition idle_write_if : write_if :=
  WriteIf idle_channel idle_channel idle_channel.

(** Modelled from the spec: [AxiLiteMaster], the master side of the
    protocol engine, a class of cocotbext.axi whose source is not in the
    repository: its write interface, the state of the write under way and
    the response to the last one. *)
Record AxiLiteMaster : Type := Master {
  m_write_if : write_if;
  m_state : chan_state;
  m_outcome : option resp
}.

(** Modelled from the spec: [AxiLiteRam], the slave side, a class of
    cocotbext.axi whose source is not in the repository: the protocol engine
    in front of the memory region. *)
Record AxiLiteRam : Type := Ram {
  r_write_if : write_if;
  r_mem : Memory
}.

(** The stall generators of the three channels consume their element. *)
Definition consume_pauses (w : write_if) : write_if :=
  WriteIf (consume_pause (aw_channel w))
          (consume_pause (w_channel w))
          (consume_pause (b_channel w)).

(** Modelled from the spec: the memory access the missing slave model makes
    for an accepted write, and the response to it.  An access outside the
    region leaves the store as it was and answers SLVERR. *)
Definition access (mem : Memory) (a : Z) (d : list byte) : Memory * resp :=
  match mem_write mem a d with
  | Some mem' => (mem', OKAY)
  | None => (mem, SLVERR)
  end.

(** Modelled from the spec: what the missing slave model does, on an edge,
    with an address and a data item it accepted on earlier edges: the memory
    access, and the response offered on the B channel. *)
Definition serve (a : Z) (d : list byte) (r : AxiLiteRam) (w : write_if)
  : AxiLiteRam :=
  Ram (WriteIf (clear (aw_channel w)) (clear (w_channel w))
               (offer (access (r_mem r) a d).2 (b_channel w)))
      (access (r_mem r) a d).1.

(** Modelled from the spec: one clock edge of the missing protocol engine,
    the master side, the decoder and the slave side together.  The decoder,
    whose HDL is not among the sources, passes the three channels through
    and places the address relative to [base] (a write at base + x lands at
    offset x of the store).  Every decision uses the state of before the
    edge (compute, then commit).  AW and W are offered concurrently; the
    slave makes the memory access on the edge after it has both, and offers
    the response, which the master takes on the edge after that. *)
Definition bus_edge (base : Z) (m : AxiLiteMaster) (r : AxiLiteRam)
  : AxiLiteMaster * AxiLiteRam :=
  let mw := consume_pauses (m_write_if m) in
  let rw := consume_pauses (r_write_if r) in
  let '(m_aw, r_aw) :=
    transfer (fun a => a - base) (aw_channel mw) (aw_channel rw) in
  let '(m_w, r_w) := transfer id (w_channel mw) (w_channel rw) in
  let b_shake :=
    bool_decide (m_state m = RESPONSE_PENDING)
    && handshake (b_channel rw) (b_channel mw) in
  let r' :=
    match payload (aw_channel rw), payload (w_channel rw),
          payload (b_channel rw) with
    | Some a, Some d, None => serve a d r rw
    | _, _, _ =>
        Ram (WriteIf r_aw r_w
                     (if b_shake then clear (b_channel rw) else b_channel rw))
            (r_mem r)
    end in
  let state' :=
    match m_state m with
    | REQUEST_SENT =>
        if negb (has_item m_aw) && negb (has_item m_w)
        then REQUEST_ACCEPTED else REQUEST_SENT
    | REQUEST_ACCEPTED => RESPONSE_PENDING
    | RESPONSE_PENDING => if b_shake then DONE else RESPONSE_PENDING
    | s => s
    end in
  (Master (WriteIf m_aw m_w (b_channel mw)) state'
          (if b_shake then payload (b_channel rw) else m_outcome m),
   r').

(** Modelled from the spec: [init_write(address, data)] of the missing
    [AxiLiteMaster]: it raises valid on AW and W with their payloads and
    returns at once. *)
Definition init_write (addr : Z) (data : list byte) (m : AxiLiteMaster)
  : AxiLiteMaster :=
  Master (WriteIf (offer addr (aw_channel (m_write_if m)))
                  (offer data (w_channel (m_write_if m)))
                  (b_channel (m_write_if m)))
         REQUEST_SENT None.


(** ** The bench *)

(** What a test coroutine works on: the parameters of the design, the
    simulation time in ns, the signals the bench drives, the two models it
    may have instantiated on the [s_axi] and [m_axi] buses, and the state of
    [random].  [aclk] is the time at which the clock was started, if it was;
    [arstn_log] keeps every value written to [arstn] with its time, latest
    first. *)
Record bench : Type := Bench {
  SLAVE_REGION : Z;
  SLAVE_ADDRESS : Z;
  BUS_WIDTH : Z;
  now : Z;
  aclk : option Z;
  arstn : Logic;
  arstn_log : list (Z * Logic);
  axil_master : option AxiLiteMaster;
  axil_ram : option AxiLiteRam;
  random_state : rng
}.

(** The design as the simulator hands it to a test that runs first: time 0,
    no clock, nothing driven, no model attached. *)
Definition power_on (region address width : Z) (r : rng) : bench :=
  Bench region address width 0 None LZ [] None None r.

(** The bench with one field changed. *)
Definition set_now (t : Z) (b : bench) : bench :=
  Bench (SLAVE_REGION b) (SLAVE_ADDRESS b) (BUS_WIDTH b) t (aclk b) (arstn b)
        (arstn_log b) (axil_master b) (axil_ram b) (random_state b).

Definition set_aclk (c : option Z) (b : bench) : bench :=
  Bench (SLAVE_REGION b) (SLAVE_ADDRESS b) (BUS_WIDTH b) (now b) c (arstn b)
        (arstn_log b) (axil_master b) (axil_ram b) (random_state b).

(** [dut.arstn.value = v] *)
Definition set_arstn (v : Logic) (b : bench) : bench :=
  Bench (SLAVE_REGION b) (SLAVE_ADDRESS b) (BUS_WIDTH b) (now b) (aclk b) v
        ((now b, v) :: arstn_log b) (axil_master b) (axil_ram b)
        (random_state b).

Definition set_models (m : option AxiLiteMaster) (r : option AxiLiteRam)
  (b : bench) : bench :=
  Bench (SLAVE_REGION b) (SLAVE_ADDRESS b) (BUS_WIDTH b) (now b) (aclk b)
        (arstn b) (arstn_log b) m r (random_state b).

Definition set_random_state (r : rng) (b : bench) : bench :=
  Bench (SLAVE_REGION b) (SLAVE_ADDRESS b) (BUS_WIDTH b) (now b) (aclk b)
        (arstn b) (arstn_log b) (axil_master b) (axil_ram b) r.

(** The value of [arstn] at time [t], read off the log of writes: that of
    the latest write at or before [t]; undriven before the first write. *)
Fixpoint log_at (log : list (Z * Logic)) (t : Z) : Logic :=
  match log with
  | [] => LZ
  | (t0, v) :: log' => if t0 <=? t then v else log_at log' t
  end.

Definition arstn_at (b : bench) (t : Z) : Logic := log_at (arstn_log b) t.

(** Modelled from the spec: the reset state of the decoder, whose HDL is not
    among the sources; active low: asserted at time zero, and until [arstn]
    is driven high. *)
Definition reset_asserted (b : bench) : bool := bool_decide (arstn b ≠ L1).

(** One side of the bus on an edge on which no handshake can happen: its
    stall generators consume their element. *)
Definition master_consume (m : AxiLiteMaster) : AxiLiteMaster :=
  Master (consume_pauses (m_write_if m)) (m_state m) (m_outcome m).

Definition ram_consume (r : AxiLiteRam) : AxiLiteRam :=
  Ram (consume_pauses (r_write_if r)) (r_mem r).

(** Modelled from the spec: what a rising edge of [aclk] does to the missing
    decoder and bus-functional models.  The stall generators consume their
    element on every edge; handshakes happen only out of reset and with both
    sides of the bus present. *)
Definition clock_edge (b : bench) : bench :=
  if reset_asserted b
  then set_models (master_consume <$> axil_master b)
                  (ram_consume <$> axil_ram b) b
  else
    match axil_master b, axil_ram b with
    | Some m, Some r =>
        let '(m', r') := bus_edge (SLAVE_ADDRESS b) m r in
        set_models (Some m') (Some r') b
    | _, _ =>
        set_models (master_consume <$> axil_master b)
                   (ram_consume <$> axil_ram b) b
    end.

(** Modelled from the spec: the master-facing ready outputs of the decoder,
    whose HDL is not among the sources: undriven while reset is asserted,
    otherwise the ready of the slave side (low with no slave attached). *)
Definition s_axi_awready (b : bench) : Logic :=
  if reset_asserted b then LZ
  else match axil_ram b with
       | Some r => Logic_of_bool (ready (aw_channel (r_write_if r)))
       | None => L0
       end.


(** ** cocotb triggers *)

(** The number of rising edges of [aclk] in the [dt] ns after [now]: the
    clock of [start_clock] has a period of 2 ns and rises at its start time
    and every 2 ns from there. *)
Definition rising_edges (b : bench) (dt : Z) : nat :=
  match aclk b with
  | None => O
  | Some s => Z.to_nat ((now b + dt - s) / 2 - (now b - s) / 2)
  end.

(** [await Timer(dt, units="ns")] *)
Definition Timer (dt : Z) (b : bench) : bench :=
  Nat.iter (rising_edges b dt) clock_edge (set_now (now b + dt) b).

(** [await RisingEdge(dut.aclk)]; with no clock the wait never returns. *)
Definition RisingEdge (b : bench) : result bench :=
  match aclk b with
  | None => Raise OutOfFuel
  | Some s => Ok (clock_edge (set_now (s + 2 * ((now b - s) / 2 + 1)) b))
  end.

(** ** The test bench: clock, reset and the bus-functional models *)

(** [start_clock(dut)]: a clock of period 2 ns on [aclk], from now on. *)
Definition start_clock (b : bench) : bench := set_aclk (Some (now b)) b.

(** [reset_dut(dut)] *)
Definition reset_dut (b : bench) : bench :=
  let b := set_arstn L0 b in
  let b := Timer 200 b in
  set_arstn L1 b.

(** [AxiLiteMaster(AxiLiteBus.from_prefix(dut, "s_axi"), ...)] *)
Definition new_AxiLiteMaster : AxiLiteMaster := Master idle_write_if IDLE None.

(** [AxiLiteRam(AxiLiteBus.from_prefix(dut, "m_axi"), ..., size)] *)
Definition new_AxiLiteRam (size : Z) : AxiLiteRam :=
  Ram idle_write_if (Mem size ∅).

(** The size argument the write tests give to [AxiLiteRam]. *)
Definition axil_ram_size (b : bench) : Z :=
  (SLAVE_REGION b + 1) * BUS_WIDTH b.

(** Modelled from the spec: the wait of the blocking [write] of the missing
    [AxiLiteMaster], edge by edge, for the transaction to reach DONE; the
    transaction is then gone and the channel pair idle again.  [fuel] bounds
    the edges waited for. *)
Fixpoint await_done (fuel : nat) (b : bench) : result bench :=
  match fuel with
  | O => Raise OutOfFuel
  | S fuel' =>
      b' ← RisingEdge b;
      match axil_master b' with
      | None => Raise OutOfFuel
      | Some m =>
          if decide (m_state m = DONE)
          then Ok (set_models (Some (Master (m_write_if m) IDLE (m_outcome m)))
                              (axil_ram b') b')
          else await_done fuel' b'
      end
  end.

(** [axil_master.init_write(addr, data)] *)
Definition axil_master_init_write (addr : Z) (data : list byte) (b : bench)
  : bench :=
  set_models (init_write addr data <$> axil_master b) (axil_ram b) b.

(** [await axil_master.write(addr, data)] *)
Definition axil_master_write (fuel : nat) (addr : Z) (data : list byte)
  (b : bench) : result bench :=
  await_done fuel (axil_master_init_write addr data b).


(** [axil_ram.read(addr, length)]: the direct inspection of the store. *)
Definition axil_ram_read (addr len : Z) (b : bench) : option (list byte) :=
  r ← axil_ram b; mem_read (r_mem r) addr len.

(** [axil_ram.write_if.w_channel.set_pause_generator(g)] *)
Definition ram_w_channel_set_pause_generator (g : cycle_iter bool)
  (r : AxiLiteRam) : AxiLiteRam :=
  Ram (WriteIf (aw_channel (r_write_if r))
               (set_pause_generator g (w_channel (r_write_if r)))
               (b_channel (r_write_if r)))
      (r_mem r).

(** [axil_ram.write_if.aw_channel.set_pause_generator(g)] *)
Definition ram_aw_channel_set_pause_generator (g : cycle_iter bool)
  (r : AxiLiteRam) : AxiLiteRam :=
  Ram (WriteIf (set_pause_generator g (aw_channel (r_write_if r)))
               (w_channel (r_write_if r))
               (b_channel (r_write_if r)))
      (r_mem r).

(** ** The test bench: the tests *)

(** Where a test starts: cocotb has ended the coroutines of the test before
    it, so no clock runs and no model is attached; time and the signals are
    as that test left them. *)
Definition test_start (b : bench) : bench :=
  set_aclk None (set_models None None b).

(** The body of the [for x in range(...)] loop, the same in the three write
    tests: encode [x], write it at [SLAVE_ADDRESS + x], read the store back
    at [x], compare. *)
Definition write_iteration (fuel : nat) (x : Z) (b : bench) : result bench :=
  payload_bytes ← to_bytes x (BUS_WIDTH b);
  b' ← axil_master_write fuel (SLAVE_ADDRESS b + x) payload_bytes b;
  match axil_ram_read x (BUS_WIDTH b) b' with
  | Some data =>
      if decide (data = payload_bytes) then Ok b' else Raise AssertionError
  | None => Raise AssertionError
  end.

(** [for x in xs: body], an exception ending the loop. *)
Fixpoint for_each (body : Z -> bench -> result bench) (xs : list Z)
  (b : bench) : result bench :=
  match xs with
  | [] => Ok b
  | x :: xs' => b' ← body x b; for_each body xs' b'
  end.

Definition increment_test_write (fuel : nat) (b : bench) : result bench :=
  let b := start_clock (test_start b) in
  let b := set_models (Some new_AxiLiteMaster)
                      (Some (new_AxiLiteRam (axil_ram_size b))) b in
  let b := reset_dut b in
  xs ← range 4 (SLAVE_REGION b) (BUS_WIDTH b);
  for_each (write_iteration fuel) xs b.

Definition increment_test_random_ready_write_data (fuel : nat) (b : bench)
  : result bench :=
  let b := start_clock (test_start b) in
  let '(g, rs) := random_bool (random_state b) in
  let b := set_random_state rs b in
  let b := set_models
             (Some new_AxiLiteMaster)
             (Some (ram_w_channel_set_pause_generator g
                      (new_AxiLiteRam (axil_ram_size b)))) b in
  let b := reset_dut b in
  xs ← range 4 (SLAVE_REGION b) (BUS_WIDTH b);
  for_each (write_iteration fuel) xs b.

Definition increment_test_random_ready_read_addr (fuel : nat) (b : bench)
  : result bench :=
  let b := start_clock (test_start b) in
  let '(g, rs) := random_bool (random_state b) in
  let b := set_random_state rs b in
  let b := set_models
             (Some new_AxiLiteMaster)
             (Some (ram_aw_channel_set_pause_generator g
                      (new_AxiLiteRam (axil_ram_size b)))) b in
  let b := reset_dut b in
  xs ← range 4 (SLAVE_REGION b) (BUS_WIDTH b);
  for_each (write_iteration fuel) xs b.

(** [assert str(dut.s_axi_awready.value) == str(Logic("z")).lower()] *)
Definition assert_awready_z (b : bench) : result bench :=
  if decide (s_axi_awready b = LZ) then Ok b else Raise AssertionError.

Definition in_reset (b : bench) : result bench :=
  let b := start_clock (test_start b) in
  let b := set_arstn L0 b in
  let b := Timer 100 b in
  assert_awready_z b.

Definition no_clock (b : bench) : result bench :=
  let b := test_start b in
  let b := set_arstn L0 b in
  let b := Timer 100 b in
  assert_awready_z b.

(** Three tapes for [random]: all zeros, runs of three ones and three
    zeros, all ones. *)
Definition quiet : rng := Rng (fun _ => false) 0.
Definition noisy : rng := Rng (fun i => Nat.even (i / 3)) 0.
Definition stuck : rng := Rng (fun _ => true) 0.

(** Whether a test ran to its end with no exception. *)
Definition passed (r : result bench) : bool :=
  match r with Ok _ => true | Raise _ => false end.

(** ** Vocabulary of the statements *)

(** Whether the generator pauses its channel end on the [i]-th edge from
    now (an exhausted generator does not). *)
Definition stalls (g : cycle_iter bool) (i : nat) : bool :=
  default false (item_at g i).

(** The channel end is let through on one of the next [n + 1] edges. *)
Definition free_within {P} (n : nat) (c : channel P) : Prop :=
  match pause_generator c with
  | None => True
  | Some g => exists i, (i <= n)%nat /\ stalls g i = false
  end.

(** The stall generator of the channel end, if it has one, does not pause
    it for ever. *)
Definition eventually_free {P} (c : channel P) : Prop :=
  exists n, free_within n c.

(** One edge of the bus, on the pair of its two sides. *)
Definition bus_step (base : Z) (p : AxiLiteMaster * AxiLiteRam)
  : AxiLiteMaster * AxiLiteRam :=
  bus_edge base p.1 p.2.

(** An item offered by the master and not yet taken; an item taken by the
    slave and not yet used. *)
Definition pending {P} (p : P) (src snk : channel P) : Prop :=
  src = Channel (Some p) None false /\ payload snk = None.

Definition accepted {P} (q : P) (src snk : channel P) : Prop :=
  src = idle_channel /\ payload snk = Some q.

(** A write of [d] at bus address [a] under way: requested, and not yet
    accepted on both channels. *)
Record in_flight (base a : Z) (d : list byte) (mem0 : Memory)
  (m : AxiLiteMaster) (r : AxiLiteRam) : Prop := InFlight {
  fl_state : m_state m = REQUEST_SENT;
  fl_mb : b_channel (m_write_if m) = idle_channel;
  fl_rb : b_channel (r_write_if r) = idle_channel;
  fl_aw : pending a (aw_channel (m_write_if m)) (aw_channel (r_write_if r))
          \/ accepted (a - base) (aw_channel (m_write_if m))
                      (aw_channel (r_write_if r));
  fl_w : pending d (w_channel (m_write_if m)) (w_channel (r_write_if r))
         \/ accepted d (w_channel (m_write_if m)) (w_channel (r_write_if r));
  fl_some : has_item (aw_channel (m_write_if m))
            || has_item (w_channel (m_write_if m)) = true;
  fl_mem : r_mem r = mem0
}.

(** The same write once both channels have been accepted. *)
Record both_accepted (base a : Z) (d : list byte) (mem0 : Memory)
  (m : AxiLiteMaster) (r : AxiLiteRam) : Prop := BothAccepted {
  ba_state : m_state m = REQUEST_ACCEPTED;
  ba_mb : b_channel (m_write_if m) = idle_channel;
  ba_rb : b_channel (r_write_if r) = idle_channel;
  ba_aw : accepted (a - base) (aw_channel (m_write_if m))
                   (aw_channel (r_write_if r));
  ba_w : accepted d (w_channel (m_write_if m)) (w_channel (r_write_if r));
  ba_mem : r_mem r = mem0
}.

(** The slave side with nothing accepted and nothing to answer. *)
Record ram_at_rest (r : AxiLiteRam) : Prop := RamAtRest {
  rr_aw : payload (aw_channel (r_write_if r)) = None;
  rr_w : payload (w_channel (r_write_if r)) = None;
  rr_b : b_channel (r_write_if r) = idle_channel
}.

(** The bench between two writes of a write test: clock running, reset
    released, the master idle, the slave at rest in front of a store of the
    size the test gave it. *)
Record at_rest (b : bench) : Prop := AtRest {
  rest_aclk : is_Some (aclk b);
  rest_arstn : arstn b = L1;
  rest_master :
    exists o, axil_master b = Some (Master idle_write_if IDLE o);
  rest_ram :
    exists r, axil_ram b = Some r /\ ram_at_rest r /\
              mem_size (r_mem r) = axil_ram_size b
}.

(** The bound on the stalls still to come on the channels of a write that
    the slave has not accepted yet. *)
Definition stalls_bounded (n : nat) (m : AxiLiteMaster) (r : AxiLiteRam)
  : Prop :=
  (has_item (aw_channel (m_write_if m)) = true ->
   free_within n (aw_channel (r_write_if r))) /\
  (has_item (w_channel (m_write_if m)) = true ->
   free_within n (w_channel (r_write_if r))).

(** The same bench with the stall generators of the slave side taken off. *)
Definition unstalled (b : bench) : bench :=
  set_models (axil_master b)
             ((fun r => Ram idle_write_if (r_mem r)) <$> axil_ram b) b.

(** The store of the slave model, if the bench has one. *)
Definition store (b : bench) : option Memory := r_mem <$> axil_ram b.

(** The time of the [k]-th rising edge after [t], for a clock started at
    [s]. *)
Definition edge_time (s t : Z) (k : nat) : Z :=
  s + 2 * ((t - s) / 2 + Z.of_nat k).

(** What [await_done] leaves when the transaction is done. *)
Definition finish (p : AxiLiteMaster * AxiLiteRam) (b : bench) : bench :=
  set_models (Some (Master (m_write_if p.1) IDLE (m_outcome p.1)))
             (Some p.2) b.

(** No stall generator on the write channels of the slave side. *)
Definition no_stall (r : AxiLiteRam) : Prop :=
  pause_generator (aw_channel (r_write_if r)) = None /\
  pause_generator (w_channel (r_write_if r)) = None.

(** The slave side of [r'] has the stall generators of [r], [k] elements
    further on. *)
Definition generators_after (k : nat) (r r' : AxiLiteRam) : Prop :=
  pause_generator (aw_channel (r_write_if r'))
  = advance k <$> pause_generator (aw_channel (r_write_if r)) /\
  pause_generator (w_channel (r_write_if r'))
  = advance k <$> pause_generator (w_channel (r_write_if r)).

(** The stall generator of the channel end, if it has one, is a cycle of
    the list [l], at some point of its course. *)
Definition cyclic_stall (l : list bool) {P} (c : channel P) : Prop :=
  match pause_generator c with
  | None => True
  | Some g => exists k, g = advance k (cycle l)
  end.

(** A write whose data the slave never takes: the request is out, and the
    stall generator on the W channel of the slave yields [true] on every
    edge to come. *)
Record w_stuck (b : bench) : Prop := WStuck {
  ws_aclk : is_Some (aclk b);
  ws_arstn : arstn b = L1;
  ws_models :
    exists m r d g,
      axil_master b = Some m /\ axil_ram b = Some r /\
      m_state m = REQUEST_SENT /\
      w_channel (m_write_if m) = Channel (Some d) None false /\
      payload (w_channel (r_write_if r)) = None /\
      pause_generator (w_channel (r_write_if r)) = Some g /\
      forall i, stalls g i = true
}.

(** The bench of the stalled write test on the all-ones tape, at the first
    write of its loop. *)
Definition stuck_bench : bench :=
  let b := start_clock (test_start (power_on 64 4096 4 stuck)) in
  let '(g, rs) := random_bool (random_state b) in
  let b := set_random_state rs b in
  reset_dut
    (set_models
       (Some new_AxiLiteMaster)
       (Some (ram_w_channel_set_pause_generator g
                (new_AxiLiteRam (axil_ram_size b)))) b).

(** The address channel of the master, and what the slave holds of it. *)
Definition master_aw (b : bench) : option (channel Z) :=
  (fun m => aw_channel (m_write_if m)) <$> axil_master b.


(** The request for address [a] is out on the master's AW channel and the
    slave has not taken it. *)
Definition aw_pending (a : Z) (b : bench) : Prop :=
  exists c, master_aw b = Some c /\ payload c = Some a.


(** The three write tests. *)
Definition write_tests : list (nat -> bench -> result bench) :=
  [increment_test_write;
   increment_test_random_ready_write_data;
   increment_test_random_ready_read_addr].

(** What holds of the bench all along a write test on a design of
    parameters [R], [A], [W]: the slave is in front of a store of
    [(R + 1) * W] bytes; no address below offset 4 of the region is on its
    way; no byte below offset 4 of the store has been written. *)
Record write_test_inv (R A W : Z) (b : bench) : Prop := WriteTestInv {
  wi_region : SLAVE_REGION b = R;
  wi_address : SLAVE_ADDRESS b = A;
  wi_width : BUS_WIDTH b = W;
  wi_ram : is_Some (axil_ram b);
  wi_size : forall r, axil_ram b = Some r -> mem_size (r_mem r) = (R + 1) * W;
  wi_master : forall m a, axil_master b = Some m ->
                payload (aw_channel (m_write_if m)) = Some a -> 4 <= a - A;
  wi_held : forall r a, axil_ram b = Some r ->
              payload (aw_channel (r_write_if r)) = Some a -> 4 <= a;
  wi_low : forall r o, axil_ram b = Some r -> o < 4 ->
             mem_cells (r_mem r) !! o = None
}.

(** The benches of the write tests on a design with a region of 64, a base
    address of 4096 and a bus width of 4, at the first write of the loop:
    without stall generator, and with the generator of [random_bool] on the
    W channel of the slave. *)
Definition loop_bench : bench :=
  let b := start_clock (test_start (power_on 64 4096 4 quiet)) in
  reset_dut (set_models (Some new_AxiLiteMaster)
                        (Some (new_AxiLiteRam (axil_ram_size b))) b).

Definition noisy_bench : bench :=
  let b := start_clock (test_start (power_on 64 4096 4 noisy)) in
  let '(g, rs) := random_bool (random_state b) in
  let b := set_random_state rs b in
  reset_dut
    (set_models
       (Some new_AxiLiteMaster)
       (Some (ram_w_channel_set_pause_generator g
                (new_AxiLiteRam (axil_ram_size b)))) b).

(** ** Vocabulary of the further properties *)

(** [b'] is [b] some time later, its two models in another state and
    nothing else changed: no signal written, no parameter changed, the
    clock left as it was, no random bit drawn. *)
Definition only_ran (b b' : bench) : Prop :=
  exists m r t, now b <= t /\ b' = set_models m r (set_now t b).

(** The bits [random] hands out from its current position on. *)
Definition drawn (r : rng) (k : nat) : bool := tape r (pos r + k).

(** The bench with which a write test enters its loop: the clock started
    at the start of the test, [arstn] driven low then and high 200 ns later,
    [random] in the state [rs], the two models as the 200 ns left them. *)
Definition loop_entry (m : option AxiLiteMaster) (r : option AxiLiteRam)
  (rs : rng) (b : bench) : bench :=
  set_arstn L1
    (set_models m r
       (set_now (now b + 200)
          (set_arstn L0
             (set_random_state rs (start_clock (test_start b)))))).

(** The two write tests that attach a stall generator. *)
Definition stalled_tests : list (nat -> bench -> result bench) :=
  [increment_test_random_ready_write_data;
   increment_test_random_ready_read_addr].

(** ** Vocabulary of the reset and of the abandoned write *)


(** The bench at a clock edge, once the stall generators have said whether
    their ends are paused for the cycle: the signals the handshakes of that
    edge sample. *)
Definition at_edge (b : bench) : bench :=
  set_models (master_consume <$> axil_master b)
             (ram_consume <$> axil_ram b) b.

(** Whether the master offers an address, or data. *)
Definition offers_aw (b : bench) : bool :=
  default false
    ((fun m => has_item (aw_channel (m_write_if m))) <$> axil_master b).

Definition offers_w (b : bench) : bool :=
  default false
    ((fun m => has_item (w_channel (m_write_if m))) <$> axil_master b).

(** Whether the next clock edge takes the address, or the data, the master
    offers: it is offered before the edge and gone after it. *)
Definition aw_accepted (b : bench) : bool :=
  offers_aw b && negb (offers_aw (clock_edge b)).

Definition w_accepted (b : bench) : bool :=
  offers_w b && negb (offers_w (clock_edge b)).




(** A bench held in reset with the clock running, both models attached, on
    which the master has issued a write. *)
Definition reset_bench : bench :=
  let b := start_clock (test_start (power_on 64 4096 4 quiet)) in
  let b := set_models (Some new_AxiLiteMaster)
                      (Some (new_AxiLiteRam (axil_ram_size b))) b in
  axil_master_init_write 4100 [x04; x00; x00; x00] (set_arstn L0 b).



(** * Properties *)

(** ** The embedding at work *)

Example range_of_the_scenario :
  range 4 64 4 = Ok [4; 8; 12; 16; 20; 24; 28; 32; 36; 40; 44; 48; 52; 56; 60].
Proof. reflexivity. Qed.

Example range_of_a_zero_step : range 4 64 0 = Raise ValueError.
Proof. reflexivity. Qed.

Example range_of_a_negative_step : range 4 0 (-1) = Ok [4; 3; 2; 1].
Proof. reflexivity. Qed.

Example to_bytes_of_60 : to_bytes 60 4 = Ok [x3c; x00; x00; x00].
Proof. reflexivity. Qed.

Example to_bytes_of_258 : to_bytes 258 4 = Ok [x02; x01; x00; x00].
Proof. reflexivity. Qed.

Example to_bytes_too_big : to_bytes 256 1 = Raise OverflowError.
Proof. reflexivity. Qed.

Example cycle_of_three :
  item_at (cycle [true; false; false]) <$> seq 0 7
  = [Some true; Some false; Some false; Some true; Some false; Some false;
     Some true].
Proof. reflexivity. Qed.

Example cycle_of_nothing : item_at (cycle (@nil bool)) 0 = None.
Proof. reflexivity. Qed.

Example write_test_on_the_scenario :
  passed (increment_test_write 3 (power_on 64 4096 4 quiet)) = true.
Proof. vm_compute. reflexivity. Qed.

Example write_test_out_of_fuel :
  increment_test_write 2 (power_on 64 4096 4 quiet) = Raise OutOfFuel.
Proof. vm_compute. reflexivity. Qed.

Example write_test_on_a_narrow_bus :
  increment_test_write 3 (power_on 300 4096 1 quiet) = Raise OverflowError.
Proof. vm_compute. reflexivity. Qed.

Example stalled_write_tests_on_the_scenario :
  passed (increment_test_random_ready_write_data 6
            (power_on 64 4096 4 noisy)) = true /\
  passed (increment_test_random_ready_read_addr 6
            (power_on 64 4096 4 noisy)) = true.
Proof. split; vm_compute; reflexivity. Qed.

Example reset_tests_on_the_scenario :
  passed (in_reset (power_on 64 4096 4 quiet)) = true /\
  passed (no_clock (power_on 64 4096 4 quiet)) = true.
Proof. split; vm_compute; reflexivity. Qed.

(** ** [itertools.cycle] and [random_bool] *)

Section Cycle.
Context {A : Type}.
Implicit Types (l : list A) (it : cycle_iter A).

Lemma advance_plus n k it : advance (n + k) it = advance k (advance n it).
Proof.
  revert it; induction n as [|n IH]; intros it; [done|].
  cbn [Nat.add advance]. destruct (next it) as [[x it']|] eqn:E; [apply IH|].
  clear IH. induction k as [|k IHk]; [done|]. cbn [advance]. by rewrite E.
Qed.

(** The first pass: the items come from the argument and are saved. *)
Lemma advance_first_pass n (src sv : list A) :
  (n <= length src)%nat ->
  advance n (CycleIter src sv 0) = CycleIter (drop n src) (sv ++ take n src) 0.
Proof.
  revert src sv; induction n as [|n IH]; intros src sv Hn.
  - by rewrite drop_0, take_0, app_nil_r.
  - destruct src as [|x src]; [cbn in Hn; lia|].
    cbn [advance next source saved]. rewrite IH by (cbn in Hn; lia).
    cbn [drop take]. by rewrite <- app_assoc.
Qed.

(** The replay: the index walks through the saved items and wraps. *)
Lemma advance_replay n l idx :
  (idx < length l)%nat ->
  advance n (CycleIter [] l idx) = CycleIter [] l ((idx + n) mod length l).
Proof.
  revert idx; induction n as [|n IH]; intros idx Hidx.
  - by rewrite Nat.add_0_r, Nat.mod_small.
  - cbn [advance next source saved index].
    destruct (l !! idx) as [x|] eqn:E.
    2:{ apply lookup_ge_None in E. lia. }
    destruct (Nat.leb_spec (length l) (S idx)) as [Hle|Hlt].
    + rewrite IH by lia. f_equal.
      assert (S idx = length l) as Hl by lia.
      replace (idx + S n)%nat with (n + 1 * length l)%nat by lia.
      by rewrite Nat.Div0.mod_add.
    + rewrite IH by lia. f_equal. f_equal. lia.
Qed.

Lemma item_at_cycle l i :
  l ≠ [] -> item_at (cycle l) i = l !! (i mod length l)%nat.
Proof.
  intros Hl. assert (0 < length l)%nat as Hlen by (destruct l; cbn; [done|lia]).
  unfold item_at, cycle.
  destruct (Nat.lt_ge_cases i (length l)) as [Hlt|Hge].
  - rewrite advance_first_pass by lia. rewrite Nat.mod_small by done.
    cbn [app next source]. destruct (drop i l) as [|x rest] eqn:E.
    + apply (f_equal length) in E. rewrite length_drop in E. cbn in E. lia.
    + cbn. pose proof (lookup_drop l i 0) as Hd. rewrite E, Nat.add_0_r in Hd.
      cbn in Hd. done.
  - replace i with (length l + (i - length l))%nat at 1 by lia.
    rewrite advance_plus, advance_first_pass by lia.
    rewrite drop_all, firstn_all. cbn [app].
    rewrite advance_replay by done. cbn [next source saved index Nat.add].
    assert (((i - length l) mod length l)%nat = (i mod length l)%nat) as ->.
    { replace i with ((i - length l) + 1 * length l)%nat at 2 by lia.
      by rewrite Nat.Div0.mod_add. }
    pose proof (Nat.mod_upper_bound i (length l)) as Hub.
    destruct (l !! (i mod length l)%nat) as [x|] eqn:E; [done|].
    apply lookup_ge_None in E. lia.
Qed.
End Cycle.

Lemma random_bool_loop_length count temp r :
  length (random_bool_loop count temp r).1 = (length temp + count)%nat.
Proof.
  revert temp r; induction count as [|count IH]; intros temp r; cbn.
  - lia.
  - rewrite IH, length_app. cbn. lia.
Qed.

Lemma random_bool_temp_length r : length (random_bool_temp r).1 = 256%nat.
Proof. unfold random_bool_temp. rewrite random_bool_loop_length. reflexivity. Qed.

Lemma random_bool_fst r : (random_bool r).1 = cycle (random_bool_temp r).1.
Proof. unfold random_bool. by destruct (random_bool_temp r). Qed.

(** C7: [random_bool] returns an iterator that never runs out, and whose
    item at every position [i] is the item at position [i mod 256] of the 256
    booleans it drew when it was built. *)
Theorem random_bool_cyclic (r : rng) (i : nat) :
  length (random_bool_temp r).1 = 256%nat /\
  exists v : bool,
    item_at (random_bool r).1 i = Some v /\
    (random_bool_temp r).1 !! (i mod 256)%nat = Some v.
Proof.
  pose proof (random_bool_temp_length r) as Hlen. split; [done|].
  rewrite random_bool_fst, item_at_cycle.
  2:{ intros E. rewrite E in Hlen. discriminate Hlen. }
  rewrite Hlen.
  destruct (lookup_lt_is_Some_2 (random_bool_temp r).1 (i mod 256)%nat) as [v Hv].
  { rewrite Hlen. apply Nat.mod_upper_bound. lia. }
  exists v. split; exact Hv.
Qed.

(** ** [range] and [to_bytes] *)

Lemma range_positive_step start stop step xs x :
  0 < step -> range start stop step = Ok xs -> x ∈ xs ->
  start <= x < stop /\ exists i : nat, x = start + Z.of_nat i * step.
Proof.
  intros Hstep Hr Hx. unfold range in Hr.
  destruct (Z.eqb_spec step 0) as [|_]; [lia|]. injection Hr as <-.
  apply list_elem_of_fmap in Hx as (i & -> & Hi).
  apply elem_of_seq in Hi. split; [|by exists i].
  unfold range_len in Hi. destruct (Z.ltb_spec 0 step) as [_|]; [|lia].
  destruct (Z.ltb_spec start stop) as [Hlt|]; [|cbn in Hi; lia].
  assert (Z.of_nat i <= (stop - start - 1) / step) as Hi'.
  { pose proof (Z.div_pos (stop - start - 1) step). lia. }
  pose proof (Z.mul_div_le (stop - start - 1) step Hstep). nia.
Qed.

Lemma le_bytes_length n x : length (le_bytes n x) = n.
Proof. revert x; induction n as [|n IH]; intros x; cbn; [done|by rewrite IH]. Qed.

Lemma Z_of_byte_of_Z z : Z_of_byte (byte_of_Z z) = z mod 256.
Proof.
  unfold Z_of_byte, byte_of_Z.
  pose proof (Z.mod_pos_bound z 256 eq_refl) as Hb.
  destruct (Byte.of_N (Z.to_N (z mod 256))) as [b|] eqn:E.
  - apply Byte.to_of_N in E. rewrite E. lia.
  - apply Byte.of_N_None_iff in E. lia.
Qed.

Lemma from_bytes_le_bytes n x :
  from_bytes (le_bytes n x) = x mod 256 ^ Z.of_nat n.
Proof.
  revert x; induction n as [|n IH]; intros x.
  - cbn. by rewrite Z.mod_1_r.
  - cbn [le_bytes from_bytes]. rewrite IH, Z_of_byte_of_Z, Z.mod_mod by lia.
    rewrite Nat2Z.inj_succ, Z.pow_succ_r by lia.
    rewrite (Z.rem_mul_r x 256 (256 ^ Z.of_nat n)) by lia. done.
Qed.

(** What [to_bytes] returns is the little-endian encoding of its argument,
    of the length asked for. *)
Lemma to_bytes_Ok x len bs :
  to_bytes x len = Ok bs ->
  0 <= len /\ 0 <= x < 256 ^ len /\
  length bs = Z.to_nat len /\ from_bytes bs = x.
Proof.
  unfold to_bytes. destruct (Z.ltb_spec len 0) as [|Hlen]; [done|].
  destruct (Z.ltb_spec x 0) as [|Hx]; [done|].
  destruct (Z.leb_spec (256 ^ len) x) as [|Hfit]; [done|].
  cbn. intros [= <-]. rewrite le_bytes_length, from_bytes_le_bytes.
  rewrite Z2Nat.id by done. rewrite Z.mod_small by lia. done.
Qed.

(** ** The memory region *)

Lemma write_cells_below cells addr data a :
  a < addr -> write_cells cells addr data !! a = cells !! a.
Proof.
  revert cells addr; induction data as [|b data IH]; intros cells addr Ha.
  - done.
  - cbn. rewrite IH by lia. apply lookup_insert_ne. lia.
Qed.

Lemma write_cells_above cells addr data a :
  addr + Z.of_nat (length data) <= a ->
  write_cells cells addr data !! a = cells !! a.
Proof.
  revert cells addr; induction data as [|b data IH]; intros cells addr Ha.
  - done.
  - cbn [write_cells]. cbn [length] in Ha. rewrite IH by lia.
    apply lookup_insert_ne. lia.
Qed.

Lemma read_write_cells cells addr data :
  read_cells (write_cells cells addr data) addr (length data) = data.
Proof.
  revert cells addr; induction data as [|b data IH]; intros cells addr.
  - done.
  - cbn. rewrite write_cells_below by lia. rewrite lookup_insert_eq. cbn.
    by rewrite IH.
Qed.

(** Read after write: the bytes written are the bytes read back. *)
Lemma mem_read_write m addr data m' :
  mem_write m addr data = Some m' ->
  mem_size m' = mem_size m /\
  mem_read m' addr (Z.of_nat (length data)) = Some data.
Proof.
  unfold mem_write, mem_read. destruct (in_bounds m addr _) eqn:Hb; [|done].
  intros [= <-]. split; [done|]. unfold in_bounds in *. cbn.
  rewrite Hb. by rewrite Nat2Z.id, read_write_cells.
Qed.

Lemma mem_write_size m addr data m' :
  mem_write m addr data = Some m' -> mem_size m' = mem_size m.
Proof. intros H. by apply mem_read_write in H as [? _]. Qed.

Lemma read_cells_untouched cells addr n :
  (forall a, addr <= a < addr + Z.of_nat n -> cells !! a = None) ->
  read_cells cells addr n = replicate n x00.
Proof.
  revert addr; induction n as [|n IH]; intros addr H; [done|].
  cbn. rewrite H by lia. cbn. f_equal. apply IH. intros a Ha. apply H. lia.
Qed.

(** ** The protocol engine: one channel *)

Section Channel.
Context {P : Type}.
Implicit Types (c src snk : channel P).

Lemma consume_pause_payload c : payload (consume_pause c) = payload c.
Proof.
  unfold consume_pause. destruct (pause_generator c) as [g|]; [|done].
  by destruct (next g) as [[v g']|].
Qed.

Lemma consume_pause_has_item c : has_item (consume_pause c) = has_item c.
Proof. unfold has_item. by rewrite consume_pause_payload. Qed.

(** With a generator, an edge leaves the generator one step on and the
    end paused as the generator said. *)
Lemma consume_pause_Some c g :
  pause_generator c = Some g ->
  consume_pause c = Channel (payload c) (Some (advance 1 g)) (stalls g 0).
Proof.
  intros Hg. unfold consume_pause, stalls, item_at. rewrite Hg. cbn.
  by destruct (next g) as [[v g']|].
Qed.

Lemma stalls_advance g i : stalls (advance 1 g) i = stalls g (S i).
Proof.
  unfold stalls, item_at. by rewrite <- advance_plus.
Qed.

Lemma free_within_now c :
  free_within 0 c -> pause (consume_pause c) = false.
Proof.
  unfold free_within. destruct (pause_generator c) as [g|] eqn:Hg.
  - intros (i & Hi & Hs). rewrite (consume_pause_Some c g Hg). cbn.
    by replace i with 0%nat in Hs by lia.
  - intros _. unfold consume_pause. by rewrite Hg.
Qed.

Lemma free_within_later n c :
  free_within (S n) c -> pause (consume_pause c) = true ->
  free_within n (consume_pause c).
Proof.
  unfold free_within. destruct (pause_generator c) as [g|] eqn:Hg.
  - intros (i & Hi & Hs). rewrite (consume_pause_Some c g Hg).
    cbn [pause pause_generator]. intros Hp. destruct i as [|i]; [congruence|].
    exists i. split; [lia|]. by rewrite stalls_advance.
  - intros _. unfold consume_pause. by rewrite Hg.
Qed.

Lemma free_within_mono n k c :
  (n <= k)%nat -> free_within n c -> free_within k c.
Proof.
  unfold free_within. destruct (pause_generator c); [|done].
  intros Hnk (i & Hi & Hs). exists i. split; [lia|done].
Qed.

(** An offered item is taken on the first edge that does not find the
    receiving end paused. *)
Lemma transfer_pending (f : P -> P) p src snk :
  pending p src snk ->
  transfer f (consume_pause src) (consume_pause snk) =
    if pause (consume_pause snk)
    then (src, consume_pause snk)
    else (idle_channel,
          Channel (Some (f p)) (pause_generator (consume_pause snk)) false).
Proof.
  intros [-> Hsnk]. unfold transfer, handshake, valid, ready.
  rewrite !consume_pause_has_item. unfold has_item at 2. rewrite Hsnk.
  cbn. by destruct (pause (consume_pause snk)) eqn:Hp.
Qed.

(** Once taken, the item stays with the receiving end, whose generator
    goes on. *)
Lemma transfer_accepted (f : P -> P) q src snk :
  accepted q src snk ->
  transfer f (consume_pause src) (consume_pause snk)
  = (src, consume_pause snk).
Proof. by intros [-> Hsnk]. Qed.
End Channel.

(** ** The protocol engine: a write in flight *)

(** Closes the goals that say in which state of a write the two sides are. *)
Ltac flight_state :=
  constructor; cbn;
  rewrite ?consume_pause_payload;
  try done;
  first [ by left; split; rewrite ?consume_pause_payload
        | by right; split; rewrite ?consume_pause_payload
        | by split; rewrite ?consume_pause_payload
        | idtac ].

Section Flight.
Variables (base a : Z) (d : list byte) (mem0 : Memory).

Lemma in_flight_step n m r :
  in_flight base a d mem0 m r -> stalls_bounded n m r ->
  both_accepted base a d mem0 (bus_edge base m r).1 (bus_edge base m r).2
  \/ (in_flight base a d mem0 (bus_edge base m r).1 (bus_edge base m r).2
      /\ exists n', n = S n' /\
           stalls_bounded n' (bus_edge base m r).1 (bus_edge base m r).2).
Proof.
  destruct m as [[maw mw mb] st o], r as [[raw rw rb] mem].
  intros [Hst Hmb Hrb Haw Hw Hsome Hmem] [Baw Bw]. cbn in *. subst.
  unfold bus_edge. cbn [m_write_if r_write_if consume_pauses aw_channel
    w_channel b_channel m_state bool_decide decide_rel].
  destruct Haw as [Haw|Haw], Hw as [Hw|Hw].
  - (* both channels pending *)
    rewrite (transfer_pending _ _ _ _ Haw), (transfer_pending _ _ _ _ Hw).
    rewrite !consume_pause_payload.
    destruct Haw as [-> Hraw], Hw as [-> Hrw]. rewrite ?Hraw, ?Hrw.
    specialize (Baw eq_refl). specialize (Bw eq_refl).
    destruct (pause (consume_pause raw)) eqn:Hpa,
             (pause (consume_pause rw)) eqn:Hpw; cbn.
    + right. split; [flight_state|].
      destruct n as [|n']; [by rewrite free_within_now in Hpa|].
      exists n'. split; [done|]. split; intros _; by apply free_within_later.
    + right. split; [flight_state|].
      destruct n as [|n']; [by rewrite free_within_now in Hpa|].
      exists n'. split; [done|]. split; [|done].
      intros _; by apply free_within_later.
    + right. split; [flight_state|].
      destruct n as [|n']; [by rewrite free_within_now in Hpw|].
      exists n'. split; [done|]. split; [done|].
      intros _; by apply free_within_later.
    + left. flight_state.
  - (* the address pending, the data accepted *)
    rewrite (transfer_pending _ _ _ _ Haw), (transfer_accepted _ _ _ _ Hw).
    rewrite !consume_pause_payload.
    destruct Haw as [-> Hraw], Hw as [-> Hrw]. rewrite ?Hraw, ?Hrw.
    specialize (Baw eq_refl).
    destruct (pause (consume_pause raw)) eqn:Hpa; cbn.
    + right. split; [flight_state|].
      destruct n as [|n']; [by rewrite free_within_now in Hpa|].
      exists n'. split; [done|]. split; [|done].
      intros _; by apply free_within_later.
    + left. flight_state.
  - (* the data pending, the address accepted *)
    rewrite (transfer_accepted _ _ _ _ Haw), (transfer_pending _ _ _ _ Hw).
    rewrite !consume_pause_payload.
    destruct Haw as [-> Hraw], Hw as [-> Hrw]. rewrite ?Hraw, ?Hrw.
    specialize (Bw eq_refl).
    destruct (pause (consume_pause rw)) eqn:Hpw; cbn.
    + right. split; [flight_state|].
      destruct n as [|n']; [by rewrite free_within_now in Hpw|].
      exists n'. split; [done|]. split; [done|].
      intros _; by apply free_within_later.
    + left. flight_state.
  - (* both accepted: not in flight any more *)
    destruct Haw as [-> _], Hw as [-> _]. done.
Qed.
(** Both channels accepted: the next edge is the memory access. *)
Lemma both_accepted_edge m r :
  both_accepted base a d mem0 m r ->
  bus_edge base m r
  = (Master idle_write_if RESPONSE_PENDING (m_outcome m),
     Ram (WriteIf (clear (consume_pause (aw_channel (r_write_if r))))
                  (clear (consume_pause (w_channel (r_write_if r))))
                  (Channel (Some (access mem0 (a - base) d).2) None false))
         (access mem0 (a - base) d).1).
Proof.
  destruct m as [[maw mw mb] st o], r as [[raw rw rb] mem].
  intros [Hst Hmb Hrb [Hmaw Hraw] [Hmw Hrw] Hmem]. cbn in *. subst.
  unfold bus_edge.
  cbn [fst snd m_write_if r_write_if consume_pauses aw_channel
    w_channel b_channel m_state bool_decide decide_rel].
  rewrite !consume_pause_payload, Hraw, Hrw. cbn. done.
Qed.

(** The edge after it is the response. *)
Lemma response_edge o raw rw rsp mem :
  payload raw = None -> payload rw = None ->
  bus_edge base (Master idle_write_if RESPONSE_PENDING o)
                (Ram (WriteIf raw rw (Channel (Some rsp) None false)) mem)
  = (Master idle_write_if DONE (Some rsp),
     Ram (WriteIf (consume_pause raw) (consume_pause rw) idle_channel) mem).
Proof.
  intros Hraw Hrw. unfold bus_edge.
  cbn [fst snd m_write_if r_write_if consume_pauses aw_channel
    w_channel b_channel m_state bool_decide decide_rel].
  rewrite !consume_pause_payload, Hraw. cbn. done.
Qed.

Lemma both_accepted_done m r :
  both_accepted base a d mem0 m r ->
  m_state (bus_step base (m, r)).1 = RESPONSE_PENDING /\
  exists r',
    Nat.iter 2 (bus_step base) (m, r)
    = (Master idle_write_if DONE (Some (access mem0 (a - base) d).2), r') /\
    ram_at_rest r' /\ r_mem r' = (access mem0 (a - base) d).1.
Proof.
  intros Hacc.
  change (Nat.iter 2 (bus_step base) (m, r))
    with (bus_step base (bus_step base (m, r))).
  assert (bus_step base (m, r) = bus_edge base m r) as -> by done.
  rewrite (both_accepted_edge m r Hacc). split; [done|].
  unfold bus_step. cbn [fst snd]. rewrite response_edge by done.
  eexists. split; [reflexivity|]. split; [|done].
  constructor; cbn; by rewrite ?consume_pause_payload.
Qed.

Lemma bus_iter_S j m r :
  Nat.iter (S j) (bus_step base) (m, r)
  = Nat.iter j (bus_step base)
      ((bus_edge base m r).1, (bus_edge base m r).2).
Proof. rewrite Nat.iter_succ_r. unfold bus_step at 2. cbn. by destruct bus_edge. Qed.

(** A write in flight whose stalls are bounded by [n] has both channels
    accepted after at most [n + 1] edges. *)
Lemma in_flight_accepted n m r :
  in_flight base a d mem0 m r -> stalls_bounded n m r ->
  exists k : nat,
    (1 <= k <= n + 1)%nat /\
    (forall j, (j < k)%nat ->
       m_state (Nat.iter j (bus_step base) (m, r)).1 = REQUEST_SENT) /\
    both_accepted base a d mem0
      (Nat.iter k (bus_step base) (m, r)).1
      (Nat.iter k (bus_step base) (m, r)).2.
Proof.
  revert m r; induction n as [|n IH]; intros m r Hfl Hb.
  - destruct (in_flight_step 0 m r Hfl Hb) as [Hacc|[_ (n' & ? & _)]]; [|lia].
    exists 1%nat. split; [lia|]. split.
    + intros j Hj. replace j with 0%nat by lia. apply Hfl.
    + by rewrite bus_iter_S.
  - destruct (in_flight_step (S n) m r Hfl Hb)
      as [Hacc|[Hfl' (n' & [= <-] & Hb')]].
    + exists 1%nat. split; [lia|]. split.
      * intros j Hj. replace j with 0%nat by lia. apply Hfl.
      * by rewrite bus_iter_S.
    + destruct (IH _ _ Hfl' Hb') as (k & Hk & Hsent & Hacc).
      exists (S k). split; [lia|]. split.
      * intros [|j] Hj; [apply Hfl|]. rewrite bus_iter_S. apply Hsent. lia.
      * by rewrite bus_iter_S.
Qed.

(** It is done two edges later, and not before. *)
Lemma in_flight_done n m r :
  in_flight base a d mem0 m r -> stalls_bounded n m r ->
  exists (k : nat) r',
    (3 <= k <= n + 3)%nat /\
    (forall j, (j < k)%nat ->
       m_state (Nat.iter j (bus_step base) (m, r)).1 ≠ DONE) /\
    Nat.iter k (bus_step base) (m, r)
    = (Master idle_write_if DONE (Some (access mem0 (a - base) d).2), r') /\
    ram_at_rest r' /\ r_mem r' = (access mem0 (a - base) d).1.
Proof.
  intros Hfl Hb.
  destruct (in_flight_accepted n m r Hfl Hb) as (k & Hk & Hsent & Hacc).
  destruct (Nat.iter k (bus_step base) (m, r)) as [mk rk] eqn:Hit.
  cbn [fst snd] in Hacc.
  destruct (both_accepted_done mk rk Hacc) as (Hrp & r' & Hdone & Hrest & Hmem).
  exists (2 + k)%nat, r'. split; [lia|]. split; [|split; [|done]].
  - intros j Hj. destruct (Nat.lt_ge_cases j k) as [Hlt|Hge].
    { by rewrite (Hsent j Hlt). }
    destruct (Nat.eq_dec j k) as [->|Hne].
    { rewrite Hit. cbn. by rewrite (ba_state _ _ _ _ _ _ Hacc). }
    replace j with (1 + k)%nat by lia. rewrite Nat.iter_add, Hit.
    change (Nat.iter 1 (bus_step base) (mk, rk)) with (bus_step base (mk, rk)).
    by rewrite Hrp.
  - by rewrite Nat.iter_add, Hit.
Qed.
End Flight.

(** ** The bench: edges and waits *)

Lemma edge_time_S s t k :
  edge_time s (edge_time s t 1) k = edge_time s t (S k).
Proof.
  unfold edge_time.
  replace (s + 2 * ((t - s) / 2 + Z.of_nat 1) - s)
    with (((t - s) / 2 + 1) * 2) by lia.
  rewrite Z.div_mul by lia. lia.
Qed.

Lemma edge_time_mono s t j k : (j <= k)%nat -> edge_time s t j <= edge_time s t k.
Proof. unfold edge_time. lia. Qed.

Lemma finish_set_now p t t' m r b :
  finish p (set_now t' (set_models m r (set_now t b))) = finish p (set_now t' b).
Proof. done. Qed.

(** Out of reset and with both sides present, a clock edge is an edge of
    the bus. *)
Lemma clock_edge_running b m r :
  arstn b = L1 -> axil_master b = Some m -> axil_ram b = Some r ->
  clock_edge b
  = set_models (Some (bus_step (SLAVE_ADDRESS b) (m, r)).1)
               (Some (bus_step (SLAVE_ADDRESS b) (m, r)).2) b.
Proof.
  intros Hr Hm Hram. unfold clock_edge, reset_asserted, bus_step.
  rewrite Hr, Hm, Hram. cbn. by destruct bus_edge.
Qed.

(** The wait for DONE returns at the first edge that finds the transaction
    done, given fuel for that many edges. *)
Lemma await_done_run k : forall fuel b s m r,
  aclk b = Some s -> arstn b = L1 ->
  axil_master b = Some m -> axil_ram b = Some r ->
  (0 < k <= fuel)%nat ->
  (forall j, (0 < j < k)%nat ->
     m_state (Nat.iter j (bus_step (SLAVE_ADDRESS b)) (m, r)).1 ≠ DONE) ->
  m_state (Nat.iter k (bus_step (SLAVE_ADDRESS b)) (m, r)).1 = DONE ->
  await_done fuel b
  = Ok (finish (Nat.iter k (bus_step (SLAVE_ADDRESS b)) (m, r))
               (set_now (edge_time s (now b) k) b)).
Proof.
  induction k as [|k IH]; intros fuel b s m r Hclk Hrst Hm Hr Hk Hnot Hdone.
  { lia. }
  destruct fuel as [|fuel]; [lia|]. cbn [await_done].
  unfold RisingEdge. rewrite Hclk. cbn [mbind result_bind].
  rewrite (clock_edge_running _ m r) by done.
  cbn [axil_master set_models SLAVE_ADDRESS set_now].
  set (p1 := bus_step (SLAVE_ADDRESS b) (m, r)) in *.
  destruct k as [|k].
  - cbn in Hdone. fold p1 in Hdone. rewrite Hdone.
    rewrite decide_True by done. unfold edge_time. cbn. done.
  - assert (m_state p1.1 ≠ DONE) as Hp1 by (apply (Hnot 1%nat); lia).
    rewrite decide_False by done.
    assert (forall j, Nat.iter j (bus_step (SLAVE_ADDRESS b)) (p1.1, p1.2)
                      = Nat.iter (S j) (bus_step (SLAVE_ADDRESS b)) (m, r))
      as Hiter.
    { intros j. rewrite <- surjective_pairing. unfold p1.
      by rewrite Nat.iter_succ_r. }
    set (b1 := set_models (Some p1.1) (Some p1.2)
                 (set_now (s + 2 * ((now b - s) / 2 + 1)) b)).
    rewrite (IH fuel b1 s p1.1 p1.2); try done; try lia.
    + change (SLAVE_ADDRESS b1) with (SLAVE_ADDRESS b). rewrite Hiter.
      unfold b1. change (now (set_models _ _ (set_now ?t _))) with t.
      rewrite finish_set_now.
      change (s + 2 * ((now b - s) / 2 + 1)) with (edge_time s (now b) 1).
      by rewrite edge_time_S.
    + intros j Hj. change (SLAVE_ADDRESS b1) with (SLAVE_ADDRESS b).
      rewrite Hiter. apply Hnot. lia.
    + change (SLAVE_ADDRESS b1) with (SLAVE_ADDRESS b). by rewrite Hiter.
Qed.

(** ** The bench: one write *)

(** The slave keeps the stall generators it was given, each edge taking one
    element of them, whatever else happens on the bus. *)
Lemma pause_generator_consume {P} (c : channel P) :
  pause_generator (consume_pause c) = advance 1 <$> pause_generator c.
Proof.
  unfold consume_pause. destruct (pause_generator c) as [g|]; [|done].
  cbn. by destruct (next g) as [[v g']|].
Qed.

Lemma transfer_generator {P} (f : P -> P) (src snk : channel P) :
  pause_generator (transfer f src snk).2 = pause_generator snk.
Proof. unfold transfer. by destruct (handshake src snk). Qed.

Lemma bus_edge_generators base m r : generators_after 1 r (bus_edge base m r).2.
Proof.
  destruct m as [[maw mw mb] st o], r as [[raw rw rb] mem].
  unfold bus_edge, generators_after.
  cbn [m_write_if r_write_if consume_pauses aw_channel w_channel b_channel].
  pose proof (transfer_generator (fun a => a - base) (consume_pause maw)
                (consume_pause raw)) as Ta.
  pose proof (transfer_generator id (consume_pause mw) (consume_pause rw))
    as Tw.
  destruct (transfer _ (consume_pause maw) _) as [m_aw r_aw].
  destruct (transfer _ (consume_pause mw) _) as [m_w r_w]. cbn in Ta, Tw.
  cbn [snd]. rewrite <- !pause_generator_consume.
  by destruct (payload (consume_pause raw)), (payload (consume_pause rw)),
    (payload (consume_pause rb)).
Qed.

Lemma generators_after_trans j k r1 r2 r3 :
  generators_after j r1 r2 -> generators_after k r2 r3 ->
  generators_after (j + k) r1 r3.
Proof.
  intros [Ha Hw] [Ha' Hw']. split.
  - rewrite Ha', Ha.
    destruct (pause_generator (aw_channel (r_write_if r1))); cbn; [|done].
    by rewrite advance_plus.
  - rewrite Hw', Hw.
    destruct (pause_generator (w_channel (r_write_if r1))); cbn; [|done].
    by rewrite advance_plus.
Qed.

Lemma generators_after_0 r : generators_after 0 r r.
Proof.
  split.
  - by destruct (pause_generator (aw_channel (r_write_if r))).
  - by destruct (pause_generator (w_channel (r_write_if r))).
Qed.

Lemma bus_iter_generators base k m r :
  generators_after k r (Nat.iter k (bus_step base) (m, r)).2.
Proof.
  induction k as [|k IH]; [apply generators_after_0|].
  rewrite Nat.iter_succ. replace (S k) with (k + 1)%nat by lia.
  eapply generators_after_trans; [exact IH|]. apply bus_edge_generators.
Qed.

Lemma generators_after_no_stall k r r' :
  generators_after k r r' -> no_stall r -> no_stall r'.
Proof. intros [Ha Hw] [Hna Hnw]. split; [by rewrite Ha, Hna|by rewrite Hw, Hnw]. Qed.

Lemma generators_after_cyclic l k r r' :
  generators_after k r r' ->
  cyclic_stall l (aw_channel (r_write_if r)) ->
  cyclic_stall l (w_channel (r_write_if r)) ->
  cyclic_stall l (aw_channel (r_write_if r'))
  /\ cyclic_stall l (w_channel (r_write_if r')).
Proof.
  unfold cyclic_stall. intros [-> ->] Ha Hw. split.
  - destruct (pause_generator (aw_channel (r_write_if r))) as [g|]; [|done].
    cbn. destruct Ha as [j ->]. exists (j + k)%nat. by rewrite advance_plus.
  - destruct (pause_generator (w_channel (r_write_if r))) as [g|]; [|done].
    cbn. destruct Hw as [j ->]. exists (j + k)%nat. by rewrite advance_plus.
Qed.

(** A write from a bench at rest, with the stalls of the slave bounded by
    [n]: the wait returns after [k] edges, at most [n + 3], and leaves the
    bench at rest again, [d] in the store at the offset of [a] in the
    region. *)
Lemma write_from_rest n b a d mem0 mem' :
  at_rest b ->
  (forall r, axil_ram b = Some r -> stalls_bounded n (init_write a d new_AxiLiteMaster) r) ->
  store b = Some mem0 ->
  mem_write mem0 (a - SLAVE_ADDRESS b) d = Some mem' ->
  exists (k : nat) b',
    (3 <= k <= n + 3)%nat /\
    (forall fuel, (k <= fuel)%nat -> axil_master_write fuel a d b = Ok b') /\
    at_rest b' /\ store b' = Some mem' /\
    (forall s, aclk b = Some s -> now b' = edge_time s (now b) k) /\
    SLAVE_REGION b' = SLAVE_REGION b /\ SLAVE_ADDRESS b' = SLAVE_ADDRESS b /\
    BUS_WIDTH b' = BUS_WIDTH b /\
    (forall r r', axil_ram b = Some r -> axil_ram b' = Some r' ->
       generators_after k r r').
Proof.
  intros [[s Hclk] Hrst [o Hm] (r & Hr & Hrest & Hsize)] Hb Hstore Hw.
  unfold store in Hstore. rewrite Hr in Hstore. injection Hstore as Hmem0.
  set (m1 := init_write a d (Master idle_write_if IDLE o)).
  set (b1 := set_models (Some m1) (Some r) b).
  assert (in_flight (SLAVE_ADDRESS b) a d mem0 m1 r) as Hfl.
  { destruct Hrest as [Haw Hw' Hbr].
    constructor; cbn; try done; left; by split. }
  destruct (in_flight_done _ _ _ _ n m1 r Hfl (Hb r Hr))
    as (k & r' & Hk & Hnot & Hit & Hrest' & Hmem').
  assert (access mem0 (a - SLAVE_ADDRESS b) d = (mem', OKAY)) as Hacc.
  { unfold access. by rewrite Hw. }
  rewrite Hacc in Hit, Hmem'. cbn [fst snd] in Hit, Hmem'.
  exists k, (finish (Master idle_write_if DONE (Some OKAY), r')
               (set_now (edge_time s (now b) k) b)).
  split; [done|]. split; [|split; [|split; [|split; [|split; [|split; [|split]]]]]].
  - intros fuel Hfuel. unfold axil_master_write, axil_master_init_write.
    rewrite Hm, Hr. cbn [fmap option_fmap option_map].
    fold m1. fold b1.
    rewrite (await_done_run k fuel b1 s m1 r); try done; try lia.
    + change (SLAVE_ADDRESS b1) with (SLAVE_ADDRESS b). rewrite Hit. done.
    + intros j Hj. apply Hnot. lia.
    + change (SLAVE_ADDRESS b1) with (SLAVE_ADDRESS b). by rewrite Hit.
  - constructor; cbn; eauto.
    exists r'. split; [done|]. split; [done|]. rewrite Hmem'.
    rewrite (mem_write_size _ _ _ _ Hw). by rewrite <- Hmem0.
  - unfold store. cbn. by rewrite Hmem'.
  - intros s' Hs'. rewrite Hclk in Hs'. by injection Hs' as <-.
  - done.
  - done.
  - done.
  - intros r0 r0' Hr0 Hr0'. rewrite Hr in Hr0. injection Hr0 as <-.
    cbn in Hr0'. injection Hr0' as <-.
    pose proof (bus_iter_generators (SLAVE_ADDRESS b) k m1 r) as H'.
    by rewrite Hit in H'.
Qed.

(** ** The bench: one iteration of the write loop *)

(** The offsets of the loop lie in the store the test has built, whatever
    the parameters of the design. *)
Lemma loop_offset_in_store b xs x payload_bytes mem0 :
  range 4 (SLAVE_REGION b) (BUS_WIDTH b) = Ok xs -> x ∈ xs ->
  to_bytes x (BUS_WIDTH b) = Ok payload_bytes ->
  mem_size mem0 = axil_ram_size b ->
  0 < BUS_WIDTH b /\ 4 <= x < SLAVE_REGION b /\
  Z.of_nat (length payload_bytes) = BUS_WIDTH b /\
  exists mem', mem_write mem0 x payload_bytes = Some mem'.
Proof.
  intros Hr Hx Hp Hsize.
  apply to_bytes_Ok in Hp as (Hlen & _ & Hl & _).
  assert (BUS_WIDTH b ≠ 0) as Hnz.
  { intros E. unfold range in Hr. rewrite E in Hr. done. }
  assert (0 < BUS_WIDTH b) as Hpos by lia.
  destruct (range_positive_step _ _ _ _ _ Hpos Hr Hx) as [Hb _].
  split; [done|]. split; [done|]. split; [lia|].
  unfold mem_write, in_bounds. rewrite Hsize, Hl, Z2Nat.id by lia.
  unfold axil_ram_size.
  destruct (Z.leb_spec 0 x); [|lia].
  destruct (Z.leb_spec 0 (BUS_WIDTH b)); [|lia].
  destruct (Z.leb_spec (x + BUS_WIDTH b) ((SLAVE_REGION b + 1) * BUS_WIDTH b));
    [|nia].
  cbn. eauto.
Qed.

Lemma write_iteration_from_rest n b xs x payload_bytes :
  at_rest b ->
  (forall r, axil_ram b = Some r ->
     free_within n (aw_channel (r_write_if r)) /\
     free_within n (w_channel (r_write_if r))) ->
  range 4 (SLAVE_REGION b) (BUS_WIDTH b) = Ok xs -> x ∈ xs ->
  to_bytes x (BUS_WIDTH b) = Ok payload_bytes ->
  exists (k : nat) b' mem0 mem',
    (3 <= k <= n + 3)%nat /\
    (forall fuel, (k <= fuel)%nat -> write_iteration fuel x b = Ok b') /\
    (forall fuel, (k <= fuel)%nat ->
       axil_master_write fuel (SLAVE_ADDRESS b + x) payload_bytes b = Ok b') /\
    axil_ram_read x (BUS_WIDTH b) b' = Some payload_bytes /\
    at_rest b' /\
    store b = Some mem0 /\ mem_write mem0 x payload_bytes = Some mem' /\
    store b' = Some mem' /\
    (forall s, aclk b = Some s -> now b' = edge_time s (now b) k) /\
    SLAVE_REGION b' = SLAVE_REGION b /\ SLAVE_ADDRESS b' = SLAVE_ADDRESS b /\
    BUS_WIDTH b' = BUS_WIDTH b /\
    (forall r r', axil_ram b = Some r -> axil_ram b' = Some r' ->
       generators_after k r r').
Proof.
  intros Hrest Hfree Hr Hx Hp.
  destruct (rest_ram b Hrest) as (r & Hram & _ & Hsize).
  destruct (loop_offset_in_store b xs x payload_bytes (r_mem r) Hr Hx Hp Hsize)
    as (Hbw & Hxb & Hlen & mem' & Hw).
  destruct (write_from_rest n b (SLAVE_ADDRESS b + x) payload_bytes
              (r_mem r) mem' Hrest)
    as (k & b' & Hk & Hrun & Hrest' & Hstore' & Htime & HSR & HSA & HBW & Hns).
  { intros r0 Hr0. split; intros _; by apply Hfree. }
  { unfold store. by rewrite Hram. }
  { by replace (SLAVE_ADDRESS b + x - SLAVE_ADDRESS b) with x by lia. }
  assert (axil_ram_read x (BUS_WIDTH b) b' = Some payload_bytes) as Hread.
  { unfold store in Hstore'. unfold axil_ram_read.
    destruct (axil_ram b') as [r'|]; [|done]. cbn in *.
    injection Hstore' as ->. rewrite <- Hlen.
    by apply (mem_read_write _ _ _ _ Hw). }
  exists k, b', (r_mem r), mem'. split; [done|].
  split; [|split; [done|split; [done|split; [done|]]]].
  - intros fuel Hfuel. unfold write_iteration. rewrite Hp. cbn [mbind result_bind].
    rewrite (Hrun fuel Hfuel). cbn [mbind result_bind]. rewrite Hread.
    by rewrite decide_True.
  - split; [unfold store; by rewrite Hram|]. done.
Qed.

Lemma unstalled_at_rest b : at_rest b -> at_rest (unstalled b).
Proof.
  intros [Hclk Hrst Hm (r & Hr & Hrest & Hsize)].
  constructor; cbn; try done. rewrite Hr. cbn.
  exists (Ram idle_write_if (r_mem r)). done.
Qed.

(** C1: in the write test, for every offset [x] of the loop whose encoding
    [x.to_bytes(BUS_WIDTH, "little")] exists, the write of that encoding at
    [SLAVE_ADDRESS + x] completes (three clock edges suffice), and the
    [BUS_WIDTH] bytes then read from the store at [x] are that encoding: the
    iteration passes its assertion and leaves the bench ready for the next
    one. *)
Theorem write_then_read_round_trip (b : bench) (xs : list Z) (x : Z)
  (payload_bytes : list byte) :
  at_rest b ->
  (forall r, axil_ram b = Some r -> no_stall r) ->
  range 4 (SLAVE_REGION b) (BUS_WIDTH b) = Ok xs -> x ∈ xs ->
  to_bytes x (BUS_WIDTH b) = Ok payload_bytes ->
  exists b',
    axil_master_write 3 (SLAVE_ADDRESS b + x) payload_bytes b = Ok b' /\
    axil_ram_read x (BUS_WIDTH b) b' = Some payload_bytes /\
    from_bytes payload_bytes = x /\
    write_iteration 3 x b = Ok b' /\
    at_rest b' /\ (forall r, axil_ram b' = Some r -> no_stall r).
Proof.
  intros Hrest Hns Hr Hx Hp.
  destruct (write_iteration_from_rest 0 b xs x payload_bytes Hrest)
    as (k & b' & mem0 & mem' & Hk & Hit & Hw & Hread & Hrest' & _ & _ & _ & _
        & _ & _ & _ & Hns'); try done.
  { intros r Hram. destruct (Hns r Hram) as [Ha Hw].
    unfold free_within. by rewrite Ha, Hw. }
  exists b'. split; [apply Hw; lia|]. split; [done|].
  split; [by apply to_bytes_Ok in Hp as (_ & _ & _ & ?)|].
  split; [apply Hit; lia|]. split; [done|].
  intros r' Hr'. destruct (rest_ram b Hrest) as (r & Hram & _).
  eapply generators_after_no_stall; eauto.
Qed.

(** ** Stall generators *)

Lemma unstalled_no_stall b r : axil_ram (unstalled b) = Some r -> no_stall r.
Proof.
  unfold unstalled. cbn. destruct (axil_ram b); cbn; [|done].
  by intros [= <-].
Qed.

(** C2, amended: for every stall generator attached to the AW or the W
    channel of the slave that does not pause its channel for ever, the write
    of an iteration completes, the data read back from the store is the data
    written, and the store is the one the same write leaves with no stall
    generator attached; the stalled write only returns later. *)
Theorem stalls_change_latency_only (b : bench) (xs : list Z) (x : Z)
  (payload_bytes : list byte) :
  at_rest b ->
  (forall r, axil_ram b = Some r ->
     eventually_free (aw_channel (r_write_if r)) /\
     eventually_free (w_channel (r_write_if r))) ->
  range 4 (SLAVE_REGION b) (BUS_WIDTH b) = Ok xs -> x ∈ xs ->
  to_bytes x (BUS_WIDTH b) = Ok payload_bytes ->
  exists (fuel : nat) b' b0,
    write_iteration fuel x b = Ok b' /\
    axil_ram_read x (BUS_WIDTH b) b' = Some payload_bytes /\
    write_iteration 3 x (unstalled b) = Ok b0 /\
    axil_ram_read x (BUS_WIDTH b) b0 = Some payload_bytes /\
    store b' = store b0 /\
    now b0 <= now b'.
Proof.
  intros Hrest Hfree Hr Hx Hp.
  destruct (rest_ram b Hrest) as (r & Hram & _).
  destruct (Hfree r Hram) as [[na Hna] [nw Hnw]].
  destruct (write_iteration_from_rest (na `max` nw) b xs x payload_bytes Hrest)
    as (k & b' & mem0 & mem' & Hk & Hit & _ & Hread & _ & Hst & Hw & Hst'
        & Htime & _); try done.
  { intros r0 Hr0. rewrite Hram in Hr0. injection Hr0 as <-.
    split; eapply free_within_mono; try eassumption; lia. }
  destruct (write_iteration_from_rest 0 (unstalled b) xs x payload_bytes
              (unstalled_at_rest b Hrest))
    as (k0 & b0 & mem00 & mem0' & Hk0 & Hit0 & _ & Hread0 & _ & Hst0 & Hw0
        & Hst0' & Htime0 & _); try done.
  { intros r0 Hr0. apply unstalled_no_stall in Hr0 as [Ha Hw'].
    unfold free_within. by rewrite Ha, Hw'. }
  exists k, b', b0. split; [by apply Hit|]. split; [done|].
  split; [apply Hit0; lia|]. split; [done|].
  assert (mem00 = mem0) as ->.
  { unfold store, unstalled in Hst0. cbn in Hst0. unfold store in Hst.
    destruct (axil_ram b); cbn in *; congruence. }
  split; [congruence|].
  destruct (rest_aclk b Hrest) as [s Hs].
  rewrite (Htime s Hs), (Htime0 s Hs). cbn [now unstalled set_models].
  apply edge_time_mono. lia.
Qed.

(** A generator that yields [true] for ever stays one. *)
Lemma stalls_for_ever_advance g :
  (forall i, stalls g i = true) -> forall i, stalls (advance 1 g) i = true.
Proof. intros H i. by rewrite stalls_advance. Qed.

Lemma w_stuck_edge b t : w_stuck b -> w_stuck (clock_edge (set_now t b)).
Proof.
  intros [Hclk Hrst (m & r & d & g & Hm & Hr & Hst & Hmw & Hrw & Hg & Hall)].
  rewrite (clock_edge_running _ m r) by done.
  constructor; [done..|].
  destruct m as [[maw mw mb] st o], r as [[raw rw rb] mem]. cbn in *. subst.
  unfold bus_step, bus_edge.
  cbn [fst snd m_write_if r_write_if consume_pauses aw_channel w_channel
       b_channel m_state].
  assert (transfer id (consume_pause (Channel (Some d) None false))
                      (consume_pause rw)
          = (Channel (Some d) None false, consume_pause rw)) as ->.
  { rewrite (transfer_pending id d _ rw) by done.
    rewrite (consume_pause_Some rw g Hg). cbn [pause]. by rewrite Hall. }
  destruct (transfer _ (consume_pause maw) (consume_pause raw)) as [m_aw r_aw].
  rewrite (consume_pause_payload rw), Hrw. cbn.
  eexists _, _, d, (advance 1 g).
  split; [reflexivity|].
  destruct (payload (consume_pause raw));
    (split; [reflexivity|]); cbn;
    rewrite ?andb_false_r; (split; [done|]); (split; [done|]);
    rewrite consume_pause_payload, (consume_pause_Some rw g Hg); cbn;
    (split; [done|]); (split; [done|]); by apply stalls_for_ever_advance.
Qed.

(** The wait for a stuck write never returns, whatever the fuel. *)
Lemma w_stuck_await fuel : forall b, w_stuck b -> await_done fuel b = Raise OutOfFuel.
Proof.
  induction fuel as [|fuel IH]; intros b Hb; [done|].
  cbn [await_done]. unfold RisingEdge.
  destruct (ws_aclk b Hb) as [s Hs]. rewrite Hs. cbn [mbind result_bind].
  pose proof (w_stuck_edge b (s + 2 * ((now b - s) / 2 + 1)) Hb) as Hb'.
  destruct (ws_models _ Hb') as (m & r & d & g & Hm & _ & Hst & _).
  rewrite Hm, Hst. rewrite decide_False by done. by apply IH.
Qed.

Lemma stalls_cycle_all_true n k i :
  (0 < n)%nat -> stalls (advance k (cycle (replicate n true))) i = true.
Proof.
  intros Hn. unfold stalls, item_at. rewrite <- advance_plus.
  change (fst <$> next (advance (k + i) (cycle (replicate n true))))
    with (item_at (cycle (replicate n true)) (k + i)).
  rewrite item_at_cycle by (destruct n; [lia|done]).
  rewrite length_replicate, lookup_replicate_2; [done|].
  apply Nat.mod_upper_bound. lia.
Qed.

Lemma stuck_bench_w_stuck d :
  w_stuck (axil_master_init_write 4100 d stuck_bench).
Proof.
  constructor.
  - exists 0. vm_compute. reflexivity.
  - vm_compute. reflexivity.
  - exists (init_write 4100 d new_AxiLiteMaster),
           (Ram (WriteIf idle_channel
                   (Channel None
                      (Some (advance 100 (cycle (replicate 256 true)))) true)
                   idle_channel)
                (Mem 260 ∅)),
           d, (advance 100 (cycle (replicate 256 true))).
    split; [vm_compute; reflexivity|]. split; [vm_compute; reflexivity|].
    split; [reflexivity|]. split; [reflexivity|].
    split; [reflexivity|]. split; [reflexivity|].
    intros i. apply stalls_cycle_all_true. lia.
Qed.

(** C2, as stated, fails: on the tape of all ones [random_bool] yields the
    generator that is [true] on every edge; the write test without a
    generator passes, and the test with that generator on the W channel of
    the slave never gets its first write back, however many edges it is
    given. *)
Lemma stalled_write_never_returns :
  passed (increment_test_write 3 (power_on 64 4096 4 stuck)) = true /\
  forall fuel,
    increment_test_random_ready_write_data fuel (power_on 64 4096 4 stuck)
    = Raise OutOfFuel.
Proof.
  split; [vm_compute; reflexivity|]. intros fuel.
  unfold increment_test_random_ready_write_data.
  set (rb := random_bool _).
  assert (rb = (cycle (replicate 256 true), Rng (fun _ : nat => true) 256))
    as -> by (vm_compute; reflexivity).
  cbv beta iota zeta.
  set (b1 := reset_dut _).
  assert (b1 = stuck_bench) as -> by (vm_compute; reflexivity).
  assert (range 4 (SLAVE_REGION stuck_bench) (BUS_WIDTH stuck_bench)
          = Ok (4 :: map (fun i : nat => 8 + 4 * Z.of_nat i) (seq 0 14)))
    as -> by (vm_compute; reflexivity).
  cbn [mbind result_bind for_each]. unfold write_iteration.
  assert (to_bytes 4 (BUS_WIDTH stuck_bench) = Ok [x04; x00; x00; x00])
    as -> by (vm_compute; reflexivity).
  cbn [mbind result_bind]. unfold axil_master_write.
  assert (SLAVE_ADDRESS stuck_bench + 4 = 4100) as ->
    by (vm_compute; reflexivity).
  by rewrite (w_stuck_await fuel _ (stuck_bench_w_stuck _)).
Qed.

(** ** The write test as a whole *)

(** In reset the edges only run the stall generators. *)
Lemma clock_edges_in_reset k b :
  reset_asserted b = true ->
  Nat.iter k clock_edge b
  = set_models (Nat.iter k master_consume <$> axil_master b)
               (Nat.iter k ram_consume <$> axil_ram b) b.
Proof.
  intros Hrst. induction k as [|k IH].
  - destruct b as [? ? ? ? ? ? ? [m|] [r|] ?]; done.
  - rewrite Nat.iter_succ, IH. unfold clock_edge.
    change (reset_asserted (set_models _ _ b)) with (reset_asserted b).
    rewrite Hrst. cbn. by destruct (axil_master b), (axil_ram b).
Qed.

Lemma master_consume_idle k :
  Nat.iter k master_consume new_AxiLiteMaster = new_AxiLiteMaster.
Proof. induction k as [|k IH]; [done|]. by rewrite Nat.iter_succ, IH. Qed.

Lemma ram_consume_at_rest k r :
  ram_at_rest r ->
  ram_at_rest (Nat.iter k ram_consume r) /\
  r_mem (Nat.iter k ram_consume r) = r_mem r /\
  generators_after k r (Nat.iter k ram_consume r).
Proof.
  intros Hr. induction k as [|k (IH & IHm & IHg)].
  { split; [done|]. split; [done|]. apply generators_after_0. }
  rewrite Nat.iter_succ. destruct IH as [Ha Hw Hb].
  split; [|split; [done|]].
  - constructor; cbn; rewrite ?consume_pause_payload; try done.
    by rewrite Hb.
  - replace (S k) with (k + 1)%nat by lia.
    eapply generators_after_trans; [exact IHg|].
    split; cbn; apply pause_generator_consume.
Qed.

(** When a write test enters its loop the bench is at rest, the stall
    generators of the slave some elements on. *)
Lemma at_rest_after_reset b r :
  is_Some (aclk b) -> ram_at_rest r -> mem_size (r_mem r) = axil_ram_size b ->
  let b1 := reset_dut (set_models (Some new_AxiLiteMaster) (Some r) b) in
  at_rest b1 /\
  (exists k r1, axil_ram b1 = Some r1 /\ generators_after k r r1) /\
  store b1 = Some (r_mem r) /\
  SLAVE_REGION b1 = SLAVE_REGION b /\ SLAVE_ADDRESS b1 = SLAVE_ADDRESS b /\
  BUS_WIDTH b1 = BUS_WIDTH b.
Proof.
  intros Hclk Hr Hsize b1. unfold b1, reset_dut, Timer.
  rewrite clock_edges_in_reset by done.
  set (k := rising_edges _ _). cbn. rewrite master_consume_idle.
  destruct (ram_consume_at_rest k r Hr) as (Hr' & Hm' & Hg').
  split; [|split; [|split; [|done]]].
  - constructor; cbn; try done; [by eexists|].
    eexists. split; [done|]. split; [done|]. by rewrite Hm'.
  - by eexists k, _.
  - unfold store. cbn. by rewrite Hm'.
Qed.

(** A cycle of a list that holds a [false] lets its channel through within
    one turn of the list, wherever it is in its course. *)
Lemma cyclic_stall_free {P} (l : list bool) (c : channel P) :
  false ∈ l -> cyclic_stall l c -> free_within (length l - 1) c.
Proof.
  intros Hf. unfold cyclic_stall, free_within.
  destruct (pause_generator c) as [g|]; [|done]. intros [k ->].
  apply list_elem_of_lookup in Hf as [j Hj].
  pose proof (lookup_lt_Some _ _ _ Hj) as Hlt.
  set (n := length l) in *.
  exists ((j + (n - k mod n)) mod n)%nat. split.
  { pose proof (Nat.mod_upper_bound (j + (n - k mod n)) n). lia. }
  unfold stalls, item_at. rewrite <- advance_plus.
  change (fst <$> next (advance ?i (cycle l))) with (item_at (cycle l) i).
  rewrite item_at_cycle by (intros ->; cbn in Hlt; lia). fold n.
  rewrite Nat.Div0.add_mod_idemp_r.
  pose proof (Nat.div_mod k n ltac:(lia)) as Hk.
  pose proof (Nat.mod_upper_bound k n ltac:(lia)) as Hr.
  replace (k + (j + (n - k mod n)))%nat with (j + (k / n + 1) * n)%nat by lia.
  rewrite Nat.Div0.mod_add, Nat.mod_small by done. by rewrite Hj.
Qed.

(** The loop of a write test passes when the stall generators of the slave
    are cycles of a list that holds a [false], given fuel for one turn of
    the list and the three edges of a write. *)
Lemma loop_passes fuel xs l : forall ys b,
  (length l + 2 <= fuel)%nat -> false ∈ l ->
  range 4 (SLAVE_REGION b) (BUS_WIDTH b) = Ok xs -> ys ⊆ xs ->
  0 < BUS_WIDTH b -> SLAVE_REGION b <= 256 ^ BUS_WIDTH b ->
  at_rest b ->
  (forall r, axil_ram b = Some r ->
     cyclic_stall l (aw_channel (r_write_if r)) /\
     cyclic_stall l (w_channel (r_write_if r))) ->
  passed (for_each (write_iteration fuel) ys b) = true.
Proof.
  induction ys as [|y ys IH];
    intros b Hfuel Hf Hr Hsub Hpos Hfit Hrest Hcyc; [done|].
  assert (y ∈ xs) as Hy by (apply Hsub; by left).
  assert (0 < length l)%nat as Hl.
  { destruct l; [by apply elem_of_nil in Hf|cbn; lia]. }
  destruct (to_bytes y (BUS_WIDTH b)) as [payload_bytes|e] eqn:Hp.
  2:{ exfalso. unfold to_bytes in Hp.
      destruct (range_positive_step 4 _ _ xs y Hpos Hr Hy) as [[? ?] _].
      destruct (Z.ltb_spec (BUS_WIDTH b) 0); [lia|].
      destruct (Z.ltb_spec y 0); [lia|].
      destruct (Z.leb_spec (256 ^ BUS_WIDTH b) y); [lia|]. done. }
  destruct (write_iteration_from_rest (length l - 1) b xs y payload_bytes Hrest)
    as (k & b' & mem0 & mem' & Hk & Hit & _ & _ & Hrest' & _ & _ & _ & _
        & HR & HA & HW & Hgen); try done.
  { intros r Hram. destruct (Hcyc r Hram) as [Ha Hw].
    split; by apply cyclic_stall_free. }
  cbn [for_each]. rewrite (Hit fuel) by lia. cbn [mbind result_bind].
  apply IH; rewrite ?HR, ?HW; try done.
  - intros z Hz. apply Hsub. by right.
  - intros r' Hr'. destruct (rest_ram b Hrest) as (r & Hram & _).
    destruct (Hcyc r Hram) as [Ha Hw].
    by apply (generators_after_cyclic l k r r' (Hgen r r' Hram Hr')).
Qed.

(** The write test passes on every design whose offsets fit the bus width,
    from any bench, given three edges for each write. *)
Lemma increment_test_write_passes fuel b :
  (3 <= fuel)%nat ->
  0 < BUS_WIDTH b -> SLAVE_REGION b <= 256 ^ BUS_WIDTH b ->
  passed (increment_test_write fuel b) = true.
Proof.
  intros Hfuel Hpos Hfit. unfold increment_test_write.
  set (b0 := start_clock (test_start b)).
  destruct (at_rest_after_reset b0 (new_AxiLiteRam (axil_ram_size b0)))
    as (Hrest & (k & r1 & Hr1 & Hg) & _ & HR & HA & HW);
    [by eexists|done|done|].
  set (b1 := reset_dut _) in *.
  destruct (range 4 (SLAVE_REGION b1) (BUS_WIDTH b1)) as [xs|e] eqn:Hr.
  2:{ unfold range in Hr. rewrite HW in Hr.
      destruct (Z.eqb_spec (BUS_WIDTH b0) 0) as [E|]; [|done].
      change (BUS_WIDTH b0) with (BUS_WIDTH b) in E. lia. }
  cbn [mbind result_bind].
  apply (loop_passes fuel xs [false] xs b1); rewrite ?HR, ?HW; try done.
  - apply list_elem_of_here.
  - by rewrite <- HR, <- HW.
  - intros r Hr'. rewrite Hr1 in Hr'. injection Hr' as <-.
    by apply (generators_after_cyclic [false] k _ _ Hg).
Qed.

(** The two stalled write tests pass on every tape on which [random_bool]
    draws at least one zero, given fuel for one turn of its 256 booleans
    and the three edges of a write. *)
Lemma random_ready_tests_pass fuel b :
  (258 <= fuel)%nat ->
  0 < BUS_WIDTH b -> SLAVE_REGION b <= 256 ^ BUS_WIDTH b ->
  false ∈ (random_bool_temp (random_state b)).1 ->
  passed (increment_test_random_ready_write_data fuel b) = true /\
  passed (increment_test_random_ready_read_addr fuel b) = true.
Proof.
  intros Hfuel Hpos Hfit Hf.
  pose proof (random_bool_temp_length (random_state b)) as Hlen.
  unfold increment_test_random_ready_write_data,
    increment_test_random_ready_read_addr.
  change (random_state (start_clock (test_start b))) with (random_state b).
  unfold random_bool. destruct (random_bool_temp (random_state b)) as [l rs].
  cbn [fst] in Hf, Hlen.
  set (b0 := set_random_state rs (start_clock (test_start b))).
  split.
  - destruct (at_rest_after_reset b0
                (ram_w_channel_set_pause_generator (cycle l)
                   (new_AxiLiteRam (axil_ram_size b0))))
      as (Hrest & (k & r1 & Hr1 & Hg) & _ & HR & HA & HW);
      [by eexists|done|done|].
    set (b1 := reset_dut _) in *.
    destruct (range 4 (SLAVE_REGION b1) (BUS_WIDTH b1)) as [xs|e] eqn:Hr.
    2:{ unfold range in Hr. rewrite HW in Hr.
        destruct (Z.eqb_spec (BUS_WIDTH b0) 0) as [E|]; [|done].
        change (BUS_WIDTH b0) with (BUS_WIDTH b) in E. lia. }
    cbn [mbind result_bind].
    apply (loop_passes fuel xs l xs b1); rewrite ?HR, ?HW; try done.
    + lia.
    + by rewrite <- HR, <- HW.
    + intros r Hr'. rewrite Hr1 in Hr'. injection Hr' as <-.
      apply (generators_after_cyclic l k _ _ Hg); [done|].
      by exists 0%nat.
  - destruct (at_rest_after_reset b0
                (ram_aw_channel_set_pause_generator (cycle l)
                   (new_AxiLiteRam (axil_ram_size b0))))
      as (Hrest & (k & r1 & Hr1 & Hg) & _ & HR & HA & HW);
      [by eexists|done|done|].
    set (b1 := reset_dut _) in *.
    destruct (range 4 (SLAVE_REGION b1) (BUS_WIDTH b1)) as [xs|e] eqn:Hr.
    2:{ unfold range in Hr. rewrite HW in Hr.
        destruct (Z.eqb_spec (BUS_WIDTH b0) 0) as [E|]; [|done].
        change (BUS_WIDTH b0) with (BUS_WIDTH b) in E. lia. }
    cbn [mbind result_bind].
    apply (loop_passes fuel xs l xs b1); rewrite ?HR, ?HW; try done.
    + lia.
    + by rewrite <- HR, <- HW.
    + intros r Hr'. rewrite Hr1 in Hr'. injection Hr' as <-.
      apply (generators_after_cyclic l k _ _ Hg); [|done].
      by exists 0%nat.
Qed.

(** ** Clock and reset *)

(** A clock edge touches the two models and nothing else. *)
Lemma clock_edge_models b :
  exists m r, clock_edge b = set_models m r b.
Proof.
  unfold clock_edge. destruct (reset_asserted b); [by eexists _, _|].
  destruct (axil_master b) as [m|], (axil_ram b) as [r|];
    try by eexists _, _.
  destruct (bus_edge (SLAVE_ADDRESS b) m r). by eexists _, _.
Qed.

Lemma clock_edges_models k b :
  exists m r, Nat.iter k clock_edge b = set_models m r b.
Proof.
  induction k as [|k (m & r & IH)].
  - exists (axil_master b), (axil_ram b). by destruct b.
  - rewrite Nat.iter_succ, IH.
    destruct (clock_edge_models (set_models m r b)) as (m' & r' & ->).
    by exists m', r'.
Qed.

Lemma Timer_models dt b :
  exists m r, Timer dt b = set_models m r (set_now (now b + dt) b).
Proof. unfold Timer. apply clock_edges_models. Qed.

Lemma reset_dut_models b :
  exists m r,
    reset_dut b
    = set_arstn L1 (set_models m r (set_now (now b + 200) (set_arstn L0 b))).
Proof.
  unfold reset_dut. destruct (Timer_models 200 (set_arstn L0 b)) as (m & r & ->).
  by exists m, r.
Qed.

(** C8, amended: [reset_dut] drives [arstn] to 0, holds it at 0 for 200 ns,
    a fixed duration during which [arstn] is never 1, and then releases it
    to 1, where it stays. *)
Theorem reset_dut_pulse (b : bench) :
  arstn_at (reset_dut b) (now b) = L0 /\
  (forall t, now b <= t < now b + 200 ->
     arstn_at (reset_dut b) t = L0 /\ arstn_at (reset_dut b) t ≠ L1) /\
  now (reset_dut b) = now b + 200 /\
  arstn (reset_dut b) = L1 /\
  (forall t, now b + 200 <= t -> arstn_at (reset_dut b) t = L1).
Proof.
  destruct (reset_dut_models b) as (m & r & ->). unfold arstn_at. cbn.
  assert (forall t, now b <= t < now b + 200 ->
            (if now b + 200 <=? t then L1 else if now b <=? t then L0
             else log_at (arstn_log b) t) = L0) as Hlow.
  { intros t Ht. destruct (Z.leb_spec (now b + 200) t); [lia|].
    destruct (Z.leb_spec (now b) t); [done|lia]. }
  split; [apply Hlow; lia|]. split; [|split; [done|split; [done|]]].
  - intros t Ht. rewrite (Hlow t Ht). done.
  - intros t Ht. by destruct (Z.leb_spec (now b + 200) t); [|lia].
Qed.

(** C8, as stated, fails in one word: the duration of the pulse is not
    configurable; no bench makes [reset_dut] hold [arstn] low for anything
    but 200 ns. *)
Lemma reset_dut_duration_fixed :
  ~ exists b : bench, now (reset_dut b) - now b ≠ 200.
Proof.
  intros [b Hb]. destruct (reset_dut_models b) as (m & r & E).
  rewrite E in Hb. cbn in Hb. lia.
Qed.

(** *** Held in reset *)





(** Out of reset the first edge takes the address and the data of the
    request that the same bench, in reset, keeps waiting. *)
Example request_accepted_out_of_reset :
  aw_accepted (set_arstn L1 reset_bench) = true /\
  w_accepted (set_arstn L1 reset_bench) = true /\
  s_axi_awready (at_edge (set_arstn L1 reset_bench)) = L1 /\
  aw_accepted reset_bench = false /\ w_accepted reset_bench = false.
Proof. repeat split; vm_compute; reflexivity. Qed.




(** The two tests of the reset pass from any bench: [arstn] is low when
    they read [awready]. *)
Lemma in_reset_passes b : passed (in_reset b) = true.
Proof.
  unfold in_reset, assert_awready_z, s_axi_awready.
  by destruct (Timer_models 100 (set_arstn L0 (start_clock (test_start b))))
    as (m & r & ->).
Qed.

Lemma no_clock_passes b : passed (no_clock b) = true.
Proof.
  unfold no_clock, assert_awready_z, s_axi_awready.
  by destruct (Timer_models 100 (set_arstn L0 (test_start b)))
    as (m & r & ->).
Qed.

(** ** Abandoning a write *)

Lemma transfer_src_payload {P} (f : P -> P) (src snk : channel P) p :
  payload (transfer f src snk).1 = Some p ->
  transfer f src snk = (src, snk) /\ payload src = Some p.
Proof. unfold transfer. by destruct (handshake src snk). Qed.


(** An address offered after an edge was offered before it. *)
Lemma aw_pending_before a b : aw_pending a (clock_edge b) -> aw_pending a b.
Proof.
  unfold aw_pending, master_aw, clock_edge.
  assert (forall m : option AxiLiteMaster,
    (exists c, (fun m => aw_channel (m_write_if m)) <$> (master_consume <$> m)
               = Some c /\ payload c = Some a) ->
    exists c, (fun m => aw_channel (m_write_if m)) <$> m = Some c
              /\ payload c = Some a) as Hconsume.
  { intros [m|] (c & Hc & Hp); cbn in *; [|done].
    injection Hc as <-. rewrite consume_pause_payload in Hp. eauto. }
  destruct (reset_asserted b); [apply Hconsume|].
  destruct (axil_master b) as [m|] eqn:Hm, (axil_ram b) as [r|] eqn:Hr;
    try apply Hconsume.
  intros (c & Hc & Hp).
  destruct m as [[maw mw mb] st o], r as [[raw rw rb] mem].
  unfold bus_edge in *.
  cbn [m_write_if r_write_if consume_pauses aw_channel w_channel b_channel
       m_state] in *.
  destruct (transfer (fun a0 => a0 - SLAVE_ADDRESS b) (consume_pause maw)
              (consume_pause raw)) as [m_aw r_aw] eqn:Ta.
  destruct (transfer id (consume_pause mw) (consume_pause rw))
    as [m_w r_w] eqn:Tw.
  cbn in Hc. injection Hc as <-.
  pose proof (transfer_src_payload (fun a0 => a0 - SLAVE_ADDRESS b)
                (consume_pause maw) (consume_pause raw) a) as Hsrc.
  rewrite Ta in Hsrc. destruct (Hsrc Hp) as [_ Hmaw].
  rewrite consume_pause_payload in Hmaw. cbn. eauto.
Qed.

Lemma aw_pending_before_edges a n b :
  aw_pending a (Nat.iter n clock_edge b) -> aw_pending a b.
Proof.
  induction n as [|n IH]; [done|]. rewrite Nat.iter_succ.
  intros H. by apply IH, aw_pending_before.
Qed.















(** ** What a write test never does *)

Lemma transfer_payloads {P} (f : P -> P) (src snk : channel P) :
  (payload (transfer f src snk).1 = payload src
   \/ payload (transfer f src snk).1 = None) /\
  (payload (transfer f src snk).2 = payload snk
   \/ payload (transfer f src snk).2 = f <$> payload src).
Proof. unfold transfer. destruct (handshake src snk); cbn; auto. Qed.

Lemma access_size mem a d : mem_size (access mem a d).1 = mem_size mem.
Proof.
  unfold access. destruct (mem_write mem a d) as [mem'|] eqn:E; [|done].
  by apply mem_write_size in E.
Qed.

Lemma access_low mem a d o :
  4 <= a -> o < 4 ->
  mem_cells (access mem a d).1 !! o = mem_cells mem !! o.
Proof.
  intros Ha Ho. unfold access, mem_write.
  destruct (in_bounds mem a _); [|done]. cbn. apply write_cells_below. lia.
Qed.

Section WriteTestInv.
Variables R A W : Z.
#[local] Abbreviation inv := (write_test_inv R A W).

Lemma inv_clock_edge b : inv b -> inv (clock_edge b).
Proof.
  intros [HR HA HW [r Hr] Hsize Hm Hheld Hlow]. unfold clock_edge.
  assert (inv (set_models (master_consume <$> axil_master b)
                          (ram_consume <$> axil_ram b) b)) as Hconsume.
  { constructor; cbn; try done.
    - rewrite Hr. by eexists.
    - intros r1. rewrite Hr. cbn. intros [= <-]. cbn. eauto.
    - intros m1 a. destruct (axil_master b) as [m0|]; cbn; [|done].
      intros [= <-]. cbn. rewrite consume_pause_payload. eauto.
    - intros r1 a. rewrite Hr. cbn. intros [= <-]. cbn.
      rewrite consume_pause_payload. eauto.
    - intros r1 o. rewrite Hr. cbn. intros [= <-]. cbn. eauto. }
  destruct (reset_asserted b); [done|].
  destruct (axil_master b) as [m|] eqn:Em; [|done].
  clear Hconsume.
  assert (forall a, payload (aw_channel (m_write_if m)) = Some a ->
                    4 <= a - A) as Hm0 by (intros; by eapply Hm).
  assert (forall a, payload (aw_channel (r_write_if r)) = Some a -> 4 <= a)
    as Hheld0 by (intros; by eapply Hheld).
  assert (forall o, o < 4 -> mem_cells (r_mem r) !! o = None)
    as Hlow0 by (intros; by eapply Hlow).
  specialize (Hsize r Hr). clear Hm Hheld Hlow. rewrite Hr.
  destruct m as [[maw mw mb] st o], r as [[raw rw rb] mem].
  unfold bus_edge.
  cbn [m_write_if r_write_if consume_pauses aw_channel w_channel b_channel
       m_state r_mem] in *.
  pose proof (transfer_payloads (fun a0 => a0 - SLAVE_ADDRESS b)
                (consume_pause maw) (consume_pause raw)) as [Tm Tr].
  destruct (transfer _ (consume_pause maw) (consume_pause raw))
    as [m_aw r_aw].
  destruct (transfer id (consume_pause mw) (consume_pause rw)) as [m_w r_w].
  cbn [fst snd] in Tm, Tr.
  rewrite (consume_pause_payload maw), (consume_pause_payload raw) in *.
  rewrite ?consume_pause_payload.
  assert (forall a, payload m_aw = Some a -> 4 <= a - A) as Hm'.
  { intros a Ha. destruct Tm as [Tm|Tm]; rewrite Tm in Ha; [eauto|done]. }
  assert (forall a, payload r_aw = Some a -> 4 <= a) as Hr'.
  { intros a Ha. destruct Tr as [Tr|Tr]; rewrite Tr in Ha; [eauto|].
    destruct (payload maw) as [a0|] eqn:E; cbn in Ha; [|done].
    injection Ha as <-. rewrite HA. eauto. }
  destruct (payload raw) as [a|] eqn:Eraw;
    [destruct (payload rw) as [d|] eqn:Erw;
       [destruct (payload rb) as [rsp|] eqn:Erb|]|];
    constructor; cbn; try done; try (by eexists);
    try (by intros ? [= <-]; cbn; rewrite ?access_size; eauto);
    try (by intros ? ? [= <-]; cbn; eauto).
  intros ? o' [= <-] Ho. cbn. rewrite access_low by eauto. eauto.
Qed.

(** The invariant looks at the parameters and the two models only. *)
Lemma inv_same_models b b' :
  SLAVE_REGION b' = SLAVE_REGION b -> SLAVE_ADDRESS b' = SLAVE_ADDRESS b ->
  BUS_WIDTH b' = BUS_WIDTH b ->
  axil_master b' = axil_master b -> axil_ram b' = axil_ram b ->
  inv b -> inv b'.
Proof.
  intros HR HA HW Hm Hr [? ? ? ? ? ? ? ?].
  constructor; rewrite ?HR, ?HA, ?HW, ?Hm, ?Hr; done.
Qed.

Lemma inv_set_now t b : inv b -> inv (set_now t b).
Proof. by apply inv_same_models. Qed.

Lemma inv_set_arstn v b : inv b -> inv (set_arstn v b).
Proof. by apply inv_same_models. Qed.

Lemma inv_clock_edges k b : inv b -> inv (Nat.iter k clock_edge b).
Proof.
  intros H. induction k as [|k IH]; [done|].
  rewrite Nat.iter_succ. by apply inv_clock_edge.
Qed.

Lemma inv_reset_dut b : inv b -> inv (reset_dut b).
Proof.
  intros H. unfold reset_dut, Timer.
  by apply inv_set_arstn, inv_clock_edges, inv_set_now, inv_set_arstn.
Qed.

Lemma inv_init_write x d b :
  4 <= x -> inv b -> inv (axil_master_init_write (A + x) d b).
Proof.
  intros Hx [? ? ? ? ? ? ? ?]. constructor; cbn; try done.
  intros m a. destruct (axil_master b); cbn; [|done].
  intros [= <-]. cbn. intros [= <-]. lia.
Qed.

Lemma inv_await_done fuel : forall b b',
  inv b -> await_done fuel b = Ok b' -> inv b'.
Proof.
  induction fuel as [|fuel IH]; intros b b' Hb; [done|].
  cbn [await_done]. unfold RisingEdge.
  destruct (aclk b) as [s|]; [|done]. cbn [mbind result_bind].
  set (b1 := clock_edge _).
  assert (inv b1) as Hb1 by (by apply inv_clock_edge, inv_set_now).
  destruct (axil_master b1) as [m|] eqn:Hm; [|done].
  destruct (decide (m_state m = DONE)); [|by apply IH].
  intros [= <-]. destruct Hb1 as [? ? ? ? ? Hmaster ? ?].
  constructor; cbn; try done.
  intros m' a [= <-]. cbn. by apply Hmaster.
Qed.

Lemma inv_write_iteration fuel xs x b b' :
  range 4 R W = Ok xs -> x ∈ xs ->
  inv b -> write_iteration fuel x b = Ok b' -> inv b'.
Proof.
  intros Hr Hx Hb. unfold write_iteration.
  rewrite (wi_address _ _ _ _ Hb), (wi_width _ _ _ _ Hb).
  destruct (to_bytes x W) as [payload_bytes|] eqn:Hp; [|done].
  cbn [mbind result_bind]. unfold axil_master_write.
  destruct (await_done fuel _) as [b1|] eqn:Hw; [|done].
  cbn [mbind result_bind].
  assert (4 <= x) as Hx4.
  { apply to_bytes_Ok in Hp as (Hlen & _).
    assert (W ≠ 0) as Hnz
      by (intros E; unfold range in Hr; by rewrite E in Hr).
    by destruct (range_positive_step 4 R W xs x ltac:(lia) Hr Hx)
      as [[? _] _]. }
  assert (inv b1) as Hb1
    by apply (inv_await_done _ _ _
                (inv_init_write x payload_bytes b Hx4 Hb) Hw).
  destruct (axil_ram_read x W b1) as [data|]; [|done].
  destruct (decide (data = payload_bytes)); [|done]. by intros [= <-].
Qed.

Lemma inv_for_each fuel xs : forall ys b b',
  range 4 R W = Ok xs -> ys ⊆ xs ->
  inv b -> for_each (write_iteration fuel) ys b = Ok b' -> inv b'.
Proof.
  induction ys as [|y ys IH]; intros b b' Hr Hsub Hb; cbn.
  - by intros [= <-].
  - destruct (write_iteration fuel y b) as [b1|] eqn:Hy; [|done].
    cbn [mbind result_bind]. apply IH; [done| |].
    + intros z Hz. apply Hsub. by right.
    + eapply inv_write_iteration; try done. apply Hsub. by left.
Qed.
End WriteTestInv.

(** The bench a write test has built when it enters its loop: the models
    fresh, but for the stall generators it may have given the slave. *)
Lemma inv_at_loop b m r :
  payload (aw_channel (m_write_if m)) = None ->
  payload (aw_channel (r_write_if r)) = None ->
  r_mem r = Mem (axil_ram_size b) ∅ ->
  write_test_inv (SLAVE_REGION b) (SLAVE_ADDRESS b) (BUS_WIDTH b)
    (reset_dut (set_models (Some m) (Some r) b)).
Proof.
  intros Hm Hr Hmem. apply inv_reset_dut.
  constructor; cbn; try done.
  - intros r0 [= <-]. by rewrite Hmem.
  - intros m0 a [= <-]. by rewrite Hm.
  - intros r0 a [= <-]. by rewrite Hr.
  - intros r0 o [= <-] _. by rewrite Hmem.
Qed.

(** The invariant holds at the end of each of the three write tests. *)
Lemma write_tests_inv test fuel b b' :
  test ∈ write_tests -> test fuel b = Ok b' ->
  write_test_inv (SLAVE_REGION b) (SLAVE_ADDRESS b) (BUS_WIDTH b) b'.
Proof.
  intros Ht. unfold write_tests in Ht.
  apply elem_of_cons in Ht as [->|Ht];
    [|apply elem_of_cons in Ht as [->|Ht];
      [|apply list_elem_of_singleton in Ht as ->]].
  - unfold increment_test_write.
    set (b1 := reset_dut _).
    assert (write_test_inv (SLAVE_REGION b) (SLAVE_ADDRESS b) (BUS_WIDTH b) b1)
      as Hb1 by (by apply (inv_at_loop (start_clock (test_start b)))).
    rewrite (wi_region _ _ _ _ Hb1), (wi_width _ _ _ _ Hb1).
    destruct (range 4 _ _) as [xs|] eqn:Hr; [|done]. cbn [mbind result_bind].
    by apply (inv_for_each _ _ _ fuel xs xs).
  - unfold increment_test_random_ready_write_data.
    destruct (random_bool _) as [g rs].
    set (b1 := reset_dut _).
    assert (write_test_inv (SLAVE_REGION b) (SLAVE_ADDRESS b) (BUS_WIDTH b) b1)
      as Hb1
      by (by apply (inv_at_loop
                      (set_random_state rs (start_clock (test_start b))))).
    rewrite (wi_region _ _ _ _ Hb1), (wi_width _ _ _ _ Hb1).
    destruct (range 4 _ _) as [xs|] eqn:Hr; [|done]. cbn [mbind result_bind].
    by apply (inv_for_each _ _ _ fuel xs xs).
  - unfold increment_test_random_ready_read_addr.
    destruct (random_bool _) as [g rs].
    set (b1 := reset_dut _).
    assert (write_test_inv (SLAVE_REGION b) (SLAVE_ADDRESS b) (BUS_WIDTH b) b1)
      as Hb1
      by (by apply (inv_at_loop
                      (set_random_state rs (start_clock (test_start b))))).
    rewrite (wi_region _ _ _ _ Hb1), (wi_width _ _ _ _ Hb1).
    destruct (range 4 _ _) as [xs|] eqn:Hr; [|done]. cbn [mbind result_bind].
    by apply (inv_for_each _ _ _ fuel xs xs).
Qed.

(** ** The store of the write tests *)

Lemma mem_read_is_Some m addr len :
  is_Some (mem_read m addr len)
  <-> 0 <= addr /\ 0 <= len /\ addr + len <= mem_size m.
Proof.
  unfold mem_read, in_bounds.
  destruct (Z.leb_spec 0 addr), (Z.leb_spec 0 len),
    (Z.leb_spec (addr + len) (mem_size m)); cbn;
    (split; [intros [? ?]; try done; lia | intros ?; try lia; by eexists]).
Qed.

(** C9, amended: the store a write test gives the slave is bounded to
    [(SLAVE_REGION + 1) * BUS_WIDTH] bytes, reads inside that bound
    succeeding and reads outside it failing; with a region of 64 and a bus
    width of 4 that is 260 bytes. *)
Theorem ram_store_bound (test : nat -> bench -> result bench) (fuel : nat)
  (b b' : bench) :
  test ∈ write_tests -> test fuel b = Ok b' ->
  exists r,
    axil_ram b' = Some r /\
    mem_size (r_mem r) = (SLAVE_REGION b + 1) * BUS_WIDTH b /\
    (forall addr len,
       is_Some (mem_read (r_mem r) addr len)
       <-> 0 <= addr /\ 0 <= len
           /\ addr + len <= (SLAVE_REGION b + 1) * BUS_WIDTH b) /\
    (SLAVE_REGION b = 64 -> BUS_WIDTH b = 4 -> mem_size (r_mem r) = 260).
Proof.
  intros Ht Hrun.
  destruct (write_tests_inv test fuel b b' Ht Hrun)
    as [_ _ _ [r Hr] Hsize _ _ _].
  exists r. split; [done|]. specialize (Hsize r Hr). split; [done|]. split.
  - intros addr len. by rewrite mem_read_is_Some, Hsize.
  - intros HR HW. rewrite Hsize, HR, HW. done.
Qed.

(** C9, as stated, fails: with a region of 64 and a bus width of 4 the store
    the write test leaves is one of 260 bytes, not 64; the four bytes at
    offset 64, beyond a bound of 64, can be read.  No other value of
    [SLAVE_REGION] helps: whenever the loop runs over the offsets 4, 8, ...,
    60 of the scenario at a bus width of 4, the size given to the store is
    not 64. *)
Lemma ram_store_is_not_64_bytes :
  (exists b',
     increment_test_write 3 (power_on 64 4096 4 quiet) = Ok b' /\
     mem_size <$> store b' = Some 260 /\
     axil_ram_size (power_on 64 4096 4 quiet) ≠ 64 /\
     axil_ram_read 64 4 b' = Some [x00; x00; x00; x00]) /\
  (forall R A r,
     range 4 (SLAVE_REGION (power_on R A 4 r)) (BUS_WIDTH (power_on R A 4 r))
     = Ok [4; 8; 12; 16; 20; 24; 28; 32; 36; 40; 44; 48; 52; 56; 60] ->
     axil_ram_size (power_on R A 4 r) ≠ 64).
Proof.
  split.
  - destruct (increment_test_write 3 (power_on 64 4096 4 quiet))
      as [b'|e] eqn:E.
    2:{ vm_compute in E. discriminate E. }
    exists b'. split; [done|].
    assert (store b' = store b' /\ mem_size <$> store b' = Some 260
            /\ axil_ram_read 64 4 b' = Some [x00; x00; x00; x00])
      as (_ & Hsize & Hread).
    { revert E. vm_compute. intros [= <-]. done. }
    split; [assumption|]. split; [|assumption].
    intros Hne. vm_compute in Hne. discriminate Hne.
  - intros R A r Hr. unfold axil_ram_size. cbn in *.
    unfold range in Hr. cbn in Hr. injection Hr as Hr.
    apply (f_equal length) in Hr. rewrite length_map, length_seq in Hr.
    cbn in Hr. unfold range_len in Hr. cbn in Hr.
    destruct (Z.ltb_spec 4 R); [|cbn in Hr; lia].
    assert ((R - 4 - 1) / 4 = 14) as Hq by lia.
    pose proof (Z.mul_div_le (R - 4 - 1) 4 eq_refl).
    pose proof (Z.mul_succ_div_gt (R - 4 - 1) 4 eq_refl). lia.
Qed.

(** ** The first word of the store *)

(** C10, amended: for a bus width of at most 4, no write of a write test
    targets a byte offset from 0 to [BUS_WIDTH - 1], and when the test has
    run no byte of the first bus word of the store has been written: it
    reads as zeros. *)
Theorem first_word_untouched (test : nat -> bench -> result bench)
  (fuel : nat) (b b' : bench) :
  test ∈ write_tests -> BUS_WIDTH b <= 4 -> test fuel b = Ok b' ->
  (forall xs x o,
     range 4 (SLAVE_REGION b) (BUS_WIDTH b) = Ok xs -> x ∈ xs ->
     x <= o < x + BUS_WIDTH b -> ~ (0 <= o < BUS_WIDTH b)) /\
  exists r,
    axil_ram b' = Some r /\
    (forall o, 0 <= o < BUS_WIDTH b -> mem_cells (r_mem r) !! o = None) /\
    (0 < BUS_WIDTH b -> 0 <= SLAVE_REGION b ->
     axil_ram_read 0 (BUS_WIDTH b) b'
     = Some (replicate (Z.to_nat (BUS_WIDTH b)) x00)).
Proof.
  intros Ht HW Hrun. split.
  - intros xs x o Hr Hx Ho Hlow.
    assert (0 < BUS_WIDTH b) as Hpos by lia.
    destruct (range_positive_step 4 _ _ xs x Hpos Hr Hx) as [[? _] _].
    lia.
  - destruct (write_tests_inv test fuel b b' Ht Hrun)
      as [_ _ _ [r Hr] Hsize _ _ Hlow].
    exists r. split; [done|]. split.
    + intros o Ho. apply (Hlow r o Hr). lia.
    + intros Hpos HR. unfold axil_ram_read. rewrite Hr. cbn.
      unfold mem_read, in_bounds. rewrite (Hsize r Hr).
      destruct (Z.leb_spec 0 (BUS_WIDTH b)); [|lia].
      destruct (Z.leb_spec (0 + BUS_WIDTH b)
                  ((SLAVE_REGION b + 1) * BUS_WIDTH b)); [|nia].
      cbn. f_equal. apply read_cells_untouched.
      intros a Ha. apply (Hlow r a Hr). lia.
Qed.

(** C10, as stated, fails for a bus wider than 4 bytes: with a bus width
    of 8 the first write of the loop, at offset 4, covers offsets 4 to 11,
    of which 4 to 7 lie in the first bus word; the test passes and leaves
    the first bus word of the store not zero. *)
Lemma first_word_written_on_wide_bus :
  exists xs b',
    range 4 64 8 = Ok (4 :: xs) /\ (4 <= 4 < 4 + 8 /\ 0 <= 4 < 8) /\
    increment_test_write 3 (power_on 64 4096 8 quiet) = Ok b' /\
    axil_ram_read 0 8 b' = Some [x00; x00; x00; x00; x04; x00; x00; x00].
Proof.
  destruct (increment_test_write 3 (power_on 64 4096 8 quiet)) as [b'|e] eqn:E.
  2:{ vm_compute in E. discriminate E. }
  eexists _, b'. split; [vm_compute; reflexivity|]. split; [lia|].
  split; [done|]. revert E. vm_compute. by intros [= <-].
Qed.

(** ** The theorems at work on the 64-byte, 4-byte-wide design *)

Lemma loop_bench_at_rest : at_rest loop_bench.
Proof.
  constructor.
  - exists 0. vm_compute. reflexivity.
  - vm_compute. reflexivity.
  - exists None. vm_compute. reflexivity.
  - exists (new_AxiLiteRam 260). split; [vm_compute; reflexivity|].
    split; [constructor; reflexivity|vm_compute; reflexivity].
Defined.

Lemma noisy_bench_at_rest : at_rest noisy_bench.
Proof.
  constructor.
  - exists 0. vm_compute. reflexivity.
  - vm_compute. reflexivity.
  - exists None. vm_compute. reflexivity.
  - eexists. split; [vm_compute; reflexivity|].
    split; [constructor; reflexivity|vm_compute; reflexivity].
Defined.

(** The first iteration of the write test: 4 is written at offset 4 and
    read back. *)
Lemma write_then_read_round_trip_witness :
  exists b',
    write_iteration 3 4 loop_bench = Ok b' /\
    axil_ram_read 4 4 b' = Some [x04; x00; x00; x00].
Proof.
  destruct (write_then_read_round_trip loop_bench
              (4 :: map (fun i : nat => 8 + 4 * Z.of_nat i) (seq 0 14)) 4
              [x04; x00; x00; x00])
    as (b' & _ & Hread & _ & Hit & _).
  - exact loop_bench_at_rest.
  - intros r Hr. vm_compute in Hr. injection Hr as <-. split; reflexivity.
  - vm_compute. reflexivity.
  - apply list_elem_of_here.
  - vm_compute. reflexivity.
  - exists b'. split; [exact Hit|exact Hread].
Defined.

(** The same iteration with the generator of [random_bool] on the W
    channel of the slave, on a tape that pauses the first edge: same data,
    same store, one edge later. *)
Lemma stalls_change_latency_only_witness :
  exists (fuel : nat) b' b0,
    write_iteration fuel 4 noisy_bench = Ok b' /\
    axil_ram_read 4 4 b' = Some [x04; x00; x00; x00] /\
    write_iteration 3 4 (unstalled noisy_bench) = Ok b0 /\
    axil_ram_read 4 4 b0 = Some [x04; x00; x00; x00] /\
    store b' = store b0 /\ now b0 <= now b'.
Proof.
  apply (stalls_change_latency_only noisy_bench
           (4 :: map (fun i : nat => 8 + 4 * Z.of_nat i) (seq 0 14)) 4
           [x04; x00; x00; x00]).
  - exact noisy_bench_at_rest.
  - intros r Hr. vm_compute in Hr. injection Hr as <-. split.
    + exists 0%nat. exact I.
    + exists 1%nat, 1%nat. split; [lia|vm_compute; reflexivity].
  - vm_compute. reflexivity.
  - apply list_elem_of_here.
  - vm_compute. reflexivity.
Defined.



Lemma reset_dut_pulse_witness :
  arstn_at (reset_dut (power_on 64 4096 4 quiet)) 100 = L0 /\
  arstn_at (reset_dut (power_on 64 4096 4 quiet)) 200 = L1.
Proof.
  destruct (reset_dut_pulse (power_on 64 4096 4 quiet))
    as (_ & Hlow & _ & _ & Hhigh).
  split.
  - destruct (Hlow 100) as [H _]; [|exact H].
    vm_compute. split; [discriminate|reflexivity].
  - apply (Hhigh 200). vm_compute. discriminate.
Defined.

Lemma ram_store_bound_witness :
  exists b' r,
    increment_test_write 3 (power_on 64 4096 4 quiet) = Ok b' /\
    axil_ram b' = Some r /\ mem_size (r_mem r) = 260.
Proof.
  destruct (increment_test_write 3 (power_on 64 4096 4 quiet))
    as [b'|e] eqn:E.
  2:{ vm_compute in E. discriminate E. }
  destruct (ram_store_bound increment_test_write 3
              (power_on 64 4096 4 quiet) b')
    as (r & Hr & _ & _ & Hsize).
  - apply list_elem_of_here.
  - exact E.
  - exists b', r. split; [reflexivity|]. split; [exact Hr|].
    apply Hsize; reflexivity.
Defined.

Lemma first_word_untouched_witness :
  exists b',
    increment_test_write 3 (power_on 64 4096 4 quiet) = Ok b' /\
    axil_ram_read 0 4 b' = Some [x00; x00; x00; x00].
Proof.
  destruct (increment_test_write 3 (power_on 64 4096 4 quiet))
    as [b'|e] eqn:E.
  2:{ vm_compute in E. discriminate E. }
  destruct (first_word_untouched increment_test_write 3
              (power_on 64 4096 4 quiet) b')
    as (_ & r & _ & _ & Hread).
  - apply list_elem_of_here.
  - vm_compute. discriminate.
  - exact E.
  - exists b'. split; [reflexivity|]. apply Hread.
    + reflexivity.
    + vm_compute. discriminate.
Defined.

(** * Further properties of the test bench *)

(** ** The offsets of the loop *)

Lemma range_lookup start stop step xs (i : nat) x :
  0 < step -> range start stop step = Ok xs ->
  xs !! i = Some x
  <-> x = start + Z.of_nat i * step /\ start + Z.of_nat i * step < stop.
Proof.
  intros Hstep Hr. unfold range in Hr.
  destruct (Z.eqb_spec step 0) as [|_]; [lia|]. injection Hr as <-.
  rewrite list_lookup_fmap. unfold range_len.
  destruct (Z.ltb_spec 0 step) as [_|]; [|lia].
  assert (forall n : nat, seq 0 n !! i = Some i <-> (i < n)%nat) as Hseq.
  { intros n. split.
    - intros H. apply lookup_seq in H. lia.
    - intros H. by apply lookup_seq. }
  destruct (Z.ltb_spec start stop) as [Hlt|Hge].
  - pose proof (Z.div_pos (stop - start - 1) step ltac:(lia) Hstep) as Hq.
    pose proof (Z.mul_div_le (stop - start - 1) step Hstep) as Hlo.
    pose proof (Z.mul_succ_div_gt (stop - start - 1) step Hstep) as Hhi.
    split.
    + intros H. destruct (seq 0 _ !! i) as [j|] eqn:E; [|done].
      cbn in H. injection H as <-. apply lookup_seq in E as [-> Hi].
      split; [done|]. nia.
    + intros [-> Hi]. rewrite (proj2 (Hseq _)); [done|]. nia.
  - split.
    + intros H. destruct (seq 0 _ !! i) as [j|] eqn:E; [|done].
      apply lookup_seq in E. cbn in E. lia.
    + intros [-> Hi]. nia.
Qed.

(** X1: for a positive bus width the loop of the tests visits exactly the
    offsets 4, 4 + BUS_WIDTH, 4 + 2 * BUS_WIDTH, ... below SLAVE_REGION, in
    that order: its [i]-th offset is [4 + i * BUS_WIDTH], and an offset is
    visited if and only if it is at least 4, below SLAVE_REGION and
    congruent to 4 modulo BUS_WIDTH. *)
Theorem loop_offsets_exact (b : bench) :
  0 < BUS_WIDTH b ->
  exists xs,
    range 4 (SLAVE_REGION b) (BUS_WIDTH b) = Ok xs /\
    (forall (i : nat) x,
       xs !! i = Some x
       <-> x = 4 + Z.of_nat i * BUS_WIDTH b /\ x < SLAVE_REGION b) /\
    (forall x,
       x ∈ xs
       <-> 4 <= x < SLAVE_REGION b /\ (x - 4) mod BUS_WIDTH b = 0).
Proof.
  intros Hw.
  destruct (range 4 (SLAVE_REGION b) (BUS_WIDTH b)) as [xs|e] eqn:Hr.
  2:{ unfold range in Hr. by destruct (Z.eqb_spec (BUS_WIDTH b) 0); [lia|]. }
  exists xs. split; [done|]. split.
  - intros i x. rewrite (range_lookup _ _ _ _ i x Hw Hr).
    split; intros [-> H]; done.
  - intros x. rewrite list_elem_of_lookup. split.
    + intros [i Hi]. apply (range_lookup _ _ _ _ i x Hw Hr) in Hi as [-> Hi].
      split; [lia|]. replace (4 + Z.of_nat i * BUS_WIDTH b - 4)
        with (Z.of_nat i * BUS_WIDTH b) by lia.
      apply Z.mod_mul. lia.
    + intros [Hx Hm]. apply Z.mod_divide in Hm as [q Hq]; [|lia].
      assert (0 <= q) as Hq0 by nia.
      exists (Z.to_nat q). apply (range_lookup _ _ _ _ _ x Hw Hr).
      rewrite Z2Nat.id by done. lia.
Qed.

(** X2: for a positive bus width the writes of two different iterations
    never overlap: the [BUS_WIDTH] bytes from one offset of the loop end
    before the next one starts. *)
Theorem loop_writes_disjoint (b : bench) (xs : list Z) (x y : Z) :
  0 < BUS_WIDTH b ->
  range 4 (SLAVE_REGION b) (BUS_WIDTH b) = Ok xs ->
  x ∈ xs -> y ∈ xs -> x ≠ y ->
  x + BUS_WIDTH b <= y \/ y + BUS_WIDTH b <= x.
Proof.
  intros Hw Hr Hx Hy Hne.
  destruct (range_positive_step _ _ _ _ _ Hw Hr Hx) as [_ [i ->]].
  destruct (range_positive_step _ _ _ _ _ Hw Hr Hy) as [_ [j ->]].
  destruct (Z.lt_trichotomy (Z.of_nat i) (Z.of_nat j)) as [H|[H|H]].
  - left. nia.
  - exfalso. apply Hne. by rewrite H.
  - right. nia.
Qed.

(** ** The payload *)

(** X3: the payload [x.to_bytes(BUS_WIDTH, "little")] of an iteration, when
    the call does not raise, has exactly [BUS_WIDTH] bytes and is the
    little-endian encoding of [x]; two offsets with the same payload are the
    same offset. *)
Theorem payload_identifies_offset (b : bench) (x y : Z)
  (payload_bytes : list byte) :
  to_bytes x (BUS_WIDTH b) = Ok payload_bytes ->
  Z.of_nat (length payload_bytes) = BUS_WIDTH b /\
  from_bytes payload_bytes = x /\
  (to_bytes y (BUS_WIDTH b) = Ok payload_bytes -> x = y).
Proof.
  intros Hx. apply to_bytes_Ok in Hx as (Hw & _ & Hlen & Hval).
  split; [lia|]. split; [done|].
  intros Hy. apply to_bytes_Ok in Hy as (_ & _ & _ & Hval'). congruence.
Qed.

(** ** The booleans of [random_bool] *)

Lemma getrandbits_one r :
  getrandbits 1 r = (Z.b2z (tape r (pos r)), Rng (tape r) (S (pos r))).
Proof. reflexivity. Qed.

Lemma bool_of_int_b2z v : bool_of_int (Z.b2z v) = v.
Proof. by destruct v. Qed.

Lemma random_bool_loop_draws count : forall temp r,
  random_bool_loop count temp r
  = (temp ++ map (drawn r) (seq 0 count), Rng (tape r) (pos r + count)).
Proof.
  induction count as [|count IH]; intros temp r.
  - cbn [random_bool_loop seq map]. rewrite app_nil_r, Nat.add_0_r.
    by destruct r.
  - cbn [random_bool_loop]. rewrite getrandbits_one, bool_of_int_b2z, IH.
    cbn [tape pos]. rewrite <- app_assoc.
    replace (S (pos r) + count)%nat with (pos r + S count)%nat by lia.
    f_equal. f_equal. cbn [app seq map]. f_equal.
    + unfold drawn. f_equal. lia.
    + rewrite <- seq_shift, map_map. apply map_ext. intros k.
      unfold drawn. cbn [tape pos]. f_equal. lia.
Qed.

(** X4: [random_bool] draws exactly 256 bits from [random], one after the
    other, and hands them out in that order, for ever: the item at position
    [i] of the iterator it returns is the bit [i mod 256] places after the
    position [random] was at, and [random] is left 256 places further on. *)
Theorem random_bool_draws (r : rng) (i : nat) :
  (random_bool r).2 = Rng (tape r) (pos r + 256) /\
  item_at (random_bool r).1 i = Some (tape r (pos r + i mod 256)).
Proof.
  unfold random_bool, random_bool_temp. rewrite random_bool_loop_draws.
  cbn [fst snd app]. split; [reflexivity|].
  assert (length (map (drawn r) (seq 0 256)) = 256%nat) as Hlen
    by (rewrite length_map, length_seq; reflexivity).
  rewrite item_at_cycle.
  2:{ intros E. rewrite E in Hlen. discriminate Hlen. }
  rewrite Hlen.
  pose proof (Nat.mod_upper_bound i 256 ltac:(lia)) as Hi.
  rewrite list_lookup_fmap, lookup_seq_lt by exact Hi. reflexivity.
Qed.

(** ** Clock and reset, edge by edge *)

Lemma rising_edges_even b s k :
  aclk b = Some s -> 0 <= k -> rising_edges b (2 * k) = Z.to_nat k.
Proof.
  intros Hclk Hk. unfold rising_edges. rewrite Hclk. f_equal.
  replace (now b + 2 * k - s) with (now b - s + k * 2) by lia.
  rewrite Z.div_add by lia. lia.
Qed.

(** X5: with the clock of [start_clock] running, whenever it was started,
    the 200 ns of [reset_dut] hold exactly 100 rising edges of [aclk], all
    of them with [arstn] low; [arstn] goes high after the last one. *)
Theorem reset_spans_hundred_edges (b : bench) (s : Z) :
  aclk b = Some s ->
  rising_edges (set_arstn L0 b) 200 = 100%nat /\
  reset_dut b
  = set_arstn L1
      (Nat.iter 100 clock_edge (set_now (now b + 200) (set_arstn L0 b))) /\
  forall k : nat,
    arstn (Nat.iter k clock_edge (set_now (now b + 200) (set_arstn L0 b)))
    = L0.
Proof.
  intros Hclk.
  assert (rising_edges (set_arstn L0 b) 200 = 100%nat) as Hedges
    by (apply (rising_edges_even (set_arstn L0 b) s 100); [exact Hclk|lia]).
  split; [exact Hedges|]. split.
  - unfold reset_dut, Timer. rewrite Hedges. reflexivity.
  - intros k.
    destruct (clock_edges_models k (set_now (now b + 200) (set_arstn L0 b)))
      as (m & r & ->).
    reflexivity.
Qed.

(** ** What the loop of a write test leaves alone *)

Lemma only_ran_models m r b : only_ran b (set_models m r b).
Proof. exists m, r, (now b). split; [lia|by destruct b]. Qed.

Lemma only_ran_trans b1 b2 b3 :
  only_ran b1 b2 -> only_ran b2 b3 -> only_ran b1 b3.
Proof.
  intros (m & r & t & Ht & ->) (m' & r' & t' & Ht' & ->).
  exists m', r', t'. cbn in *. split; [lia|done].
Qed.

Lemma only_ran_fields b b' :
  only_ran b b' ->
  SLAVE_REGION b' = SLAVE_REGION b /\ SLAVE_ADDRESS b' = SLAVE_ADDRESS b /\
  BUS_WIDTH b' = BUS_WIDTH b /\ aclk b' = aclk b /\ arstn b' = arstn b /\
  arstn_log b' = arstn_log b /\ random_state b' = random_state b /\
  now b <= now b'.
Proof. intros (m & r & t & Ht & ->). cbn. by repeat split. Qed.

Lemma RisingEdge_only_ran b b' : RisingEdge b = Ok b' -> only_ran b b'.
Proof.
  unfold RisingEdge. destruct (aclk b) as [s|]; [|done]. intros [= <-].
  destruct (clock_edge_models (set_now (s + 2 * ((now b - s) / 2 + 1)) b))
    as (m & r & ->).
  exists m, r, (s + 2 * ((now b - s) / 2 + 1)). split; [|done].
  pose proof (Z.mul_succ_div_gt (now b - s) 2 ltac:(lia)). lia.
Qed.

Lemma await_done_only_ran fuel : forall b b',
  await_done fuel b = Ok b' -> only_ran b b'.
Proof.
  induction fuel as [|fuel IH]; intros b b' H; [done|].
  cbn [await_done] in H.
  destruct (RisingEdge b) as [b1|] eqn:E; [|done].
  cbn [mbind result_bind] in H. apply RisingEdge_only_ran in E.
  destruct (axil_master b1) as [m|]; [|done].
  destruct (decide (m_state m = DONE)).
  - injection H as <-. eapply only_ran_trans; [exact E|apply only_ran_models].
  - eapply only_ran_trans; [exact E|by apply IH].
Qed.

Lemma write_iteration_only_ran fuel x b b' :
  write_iteration fuel x b = Ok b' -> only_ran b b'.
Proof.
  unfold write_iteration, axil_master_write.
  destruct (to_bytes x (BUS_WIDTH b)) as [p|]; [|done].
  cbn [mbind result_bind].
  destruct (await_done fuel _) as [b1|] eqn:E; [|done].
  cbn [mbind result_bind].
  destruct (axil_ram_read x (BUS_WIDTH b) b1); [|done].
  destruct (decide _); [|done]. intros [= <-].
  eapply only_ran_trans; [|by apply await_done_only_ran in E].
  apply only_ran_models.
Qed.

Lemma for_each_only_ran fuel xs : forall b b',
  for_each (write_iteration fuel) xs b = Ok b' -> only_ran b b'.
Proof.
  induction xs as [|x xs IH]; intros b b' H.
  - injection H as <-. exists (axil_master b), (axil_ram b), (now b).
    split; [lia|by destruct b].
  - cbn [for_each] in H.
    destruct (write_iteration fuel x b) as [b1|] eqn:E; [|done].
    cbn [mbind result_bind] in H.
    eapply only_ran_trans; [by apply write_iteration_only_ran in E|].
    by apply IH.
Qed.

(** ** The write tests from their first line to the loop *)

Lemma plain_run fuel b :
  exists m r,
    r_mem <$> r = Some (Mem (axil_ram_size b) ∅) /\
    increment_test_write fuel b
    = (xs ← range 4 (SLAVE_REGION b) (BUS_WIDTH b);
       for_each (write_iteration fuel) xs (loop_entry m r (random_state b) b)).
Proof.
  unfold increment_test_write.
  set (b0 := start_clock (test_start b)).
  destruct (at_rest_after_reset b0 (new_AxiLiteRam (axil_ram_size b0)))
    as (_ & _ & Hst & _); [by eexists|done|done|].
  destruct (reset_dut_models
              (set_models (Some new_AxiLiteMaster)
                 (Some (new_AxiLiteRam (axil_ram_size b0))) b0))
    as (m & r & E).
  rewrite E in Hst |- *. exists m, r. split; [exact Hst|reflexivity].
Qed.

Lemma stalled_run test fuel b :
  test ∈ stalled_tests ->
  exists m r,
    r_mem <$> r = Some (Mem (axil_ram_size b) ∅) /\
    test fuel b
    = (xs ← range 4 (SLAVE_REGION b) (BUS_WIDTH b);
       for_each (write_iteration fuel) xs
         (loop_entry m r (random_bool (random_state b)).2 b)).
Proof.
  intros Ht. unfold stalled_tests in Ht.
  apply elem_of_cons in Ht as [->|Ht];
    [|apply list_elem_of_singleton in Ht as ->].
  - unfold increment_test_random_ready_write_data.
    change (random_state (start_clock (test_start b))) with (random_state b).
    destruct (random_bool (random_state b)) as [g rs]. cbn [snd].
    set (b0 := set_random_state rs (start_clock (test_start b))).
    destruct (at_rest_after_reset b0
                (ram_w_channel_set_pause_generator g
                   (new_AxiLiteRam (axil_ram_size b0))))
      as (_ & _ & Hst & _); [by eexists|done|done|].
    destruct (reset_dut_models
                (set_models (Some new_AxiLiteMaster)
                   (Some (ram_w_channel_set_pause_generator g
                            (new_AxiLiteRam (axil_ram_size b0)))) b0))
      as (m & r & E).
    rewrite E in Hst |- *. exists m, r. split; [exact Hst|reflexivity].
  - unfold increment_test_random_ready_read_addr.
    change (random_state (start_clock (test_start b))) with (random_state b).
    destruct (random_bool (random_state b)) as [g rs]. cbn [snd].
    set (b0 := set_random_state rs (start_clock (test_start b))).
    destruct (at_rest_after_reset b0
                (ram_aw_channel_set_pause_generator g
                   (new_AxiLiteRam (axil_ram_size b0))))
      as (_ & _ & Hst & _); [by eexists|done|done|].
    destruct (reset_dut_models
                (set_models (Some new_AxiLiteMaster)
                   (Some (ram_aw_channel_set_pause_generator g
                            (new_AxiLiteRam (axil_ram_size b0)))) b0))
      as (m & r & E).
    rewrite E in Hst |- *. exists m, r. split; [exact Hst|reflexivity].
Qed.

Lemma write_test_run test fuel b :
  test ∈ write_tests ->
  exists m r rs,
    r_mem <$> r = Some (Mem (axil_ram_size b) ∅) /\
    test fuel b
    = (xs ← range 4 (SLAVE_REGION b) (BUS_WIDTH b);
       for_each (write_iteration fuel) xs (loop_entry m r rs b)).
Proof.
  intros Ht. unfold write_tests in Ht. apply elem_of_cons in Ht as [->|Ht].
  - destruct (plain_run fuel b) as (m & r & H). by exists m, r, (random_state b).
  - destruct (stalled_run test fuel b Ht) as (m & r & H).
    by exists m, r, (random_bool (random_state b)).2.
Qed.

Lemma write_test_to_loop test fuel b b' :
  test ∈ write_tests -> test fuel b = Ok b' ->
  exists m r rs, only_ran (loop_entry m r rs b) b'.
Proof.
  intros Ht H. destruct (write_test_run test fuel b Ht) as (m & r & rs & _ & E).
  rewrite E in H. destruct (range 4 _ _) as [xs|]; [|done].
  cbn [mbind result_bind] in H. exists m, r, rs.
  by apply for_each_only_ran in H.
Qed.

(** X6: a write test that runs to its end has driven [arstn] exactly twice,
    low on its first line and high 200 ns later, and not again during its
    writes.  It leaves [arstn] high and the clock it started running, has
    taken at least the 200 ns of the reset, and has not changed a parameter
    of the design. *)
Theorem write_test_signals (test : nat -> bench -> result bench)
  (fuel : nat) (b b' : bench) :
  test ∈ write_tests -> test fuel b = Ok b' ->
  arstn b' = L1 /\
  arstn_log b' = (now b + 200, L1) :: (now b, L0) :: arstn_log b /\
  aclk b' = Some (now b) /\
  now b + 200 <= now b' /\
  SLAVE_REGION b' = SLAVE_REGION b /\ SLAVE_ADDRESS b' = SLAVE_ADDRESS b /\
  BUS_WIDTH b' = BUS_WIDTH b.
Proof.
  intros Ht H.
  destruct (write_test_to_loop test fuel b b' Ht H) as (m & r & rs & Hran).
  apply only_ran_fields in Hran
    as (HR & HA & HW & Hclk & Hrst & Hlog & _ & Hnow).
  by repeat split.
Qed.

(** X7: each of the two tests with a stall generator draws exactly the 256
    bits of its one call of [random_bool] from [random]: a test that runs to
    its end leaves [random] 256 places further on its tape, however many
    writes it made and however long they were stalled. *)
Theorem stalled_test_draws (test : nat -> bench -> result bench)
  (fuel : nat) (b b' : bench) :
  test ∈ stalled_tests -> test fuel b = Ok b' ->
  random_state b'
  = Rng (tape (random_state b)) (pos (random_state b) + 256).
Proof.
  intros Ht H. destruct (stalled_run test fuel b Ht) as (m & r & _ & E).
  rewrite E in H. destruct (range 4 _ _) as [xs|]; [|done].
  cbn [mbind result_bind] in H. apply for_each_only_ran in H.
  apply only_ran_fields in H as (_ & _ & _ & _ & _ & _ & -> & _).
  unfold random_bool, random_bool_temp. rewrite random_bool_loop_draws.
  reflexivity.
Qed.

(** ** The loop at the edges of its range *)

Lemma range_empty start stop step :
  0 < step -> stop <= start -> range start stop step = Ok [].
Proof.
  intros Hstep Hle. unfold range, range_len.
  destruct (Z.eqb_spec step 0); [lia|].
  destruct (Z.ltb_spec 0 step); [|lia].
  by destruct (Z.ltb_spec start stop); [lia|].
Qed.

(** X8: on a design whose region ends at or before offset 4 the loop of a
    write test has no offset to visit: the test passes as soon as the reset
    is over, 200 ns after its start, without waiting for a single write
    (no fuel is needed), and the store is still empty. *)
Theorem empty_loop_passes (test : nat -> bench -> result bench)
  (fuel : nat) (b : bench) :
  test ∈ write_tests -> 0 < BUS_WIDTH b -> 0 <= SLAVE_REGION b <= 4 ->
  exists b',
    test fuel b = Ok b' /\
    now b' = now b + 200 /\
    store b' = Some (Mem (axil_ram_size b) ∅).
Proof.
  intros Ht Hw Hr.
  destruct (write_test_run test fuel b Ht) as (m & r & rs & Hmem & ->).
  rewrite range_empty by lia. cbn [mbind result_bind for_each].
  exists (loop_entry m r rs b). split; [done|]. split; [done|exact Hmem].
Qed.

Lemma for_each_unencodable fuel x : forall xs b,
  x ∈ xs -> (forall p, to_bytes x (BUS_WIDTH b) ≠ Ok p) ->
  passed (for_each (write_iteration fuel) xs b) = false.
Proof.
  induction xs as [|y xs IH]; intros b Hx Hp.
  - by apply elem_of_nil in Hx.
  - cbn [for_each].
    destruct (write_iteration fuel y b) as [b1|e] eqn:E; [|done].
    cbn [mbind result_bind]. apply elem_of_cons in Hx as [->|Hx].
    + exfalso. unfold write_iteration in E.
      destruct (to_bytes y (BUS_WIDTH b)) as [p|] eqn:Ep; [|done].
      by apply (Hp p).
    + apply IH; [done|].
      apply write_iteration_only_ran, only_ran_fields in E
        as (_ & _ & -> & _).
      exact Hp.
Qed.

(** X9: when an offset of the loop does not fit in [BUS_WIDTH] bytes, no
    write test passes, whatever the design does and however long one
    waits: [x.to_bytes(BUS_WIDTH, "little")] raises at that offset if the
    test gets that far. *)
Theorem unencodable_offset_fails (test : nat -> bench -> result bench)
  (fuel : nat) (b : bench) (x : Z) :
  test ∈ write_tests -> 0 < BUS_WIDTH b ->
  4 <= x < SLAVE_REGION b -> (x - 4) mod BUS_WIDTH b = 0 ->
  256 ^ BUS_WIDTH b <= x ->
  passed (test fuel b) = false.
Proof.
  intros Ht Hw Hx Hm Hbig.
  destruct (write_test_run test fuel b Ht) as (m & r & rs & _ & ->).
  destruct (range 4 (SLAVE_REGION b) (BUS_WIDTH b)) as [xs|] eqn:Hr; [|done].
  cbn [mbind result_bind].
  apply (for_each_unencodable fuel x).
  - apply list_elem_of_lookup. apply Z.mod_divide in Hm as [q Hq]; [|lia].
    assert (0 <= q) as Hq0 by nia.
    exists (Z.to_nat q). apply (range_lookup _ _ _ _ _ x Hw Hr).
    rewrite Z2Nat.id by done. lia.
  - intros p Hp. apply to_bytes_Ok in Hp as (_ & Hfit & _).
    change (BUS_WIDTH (loop_entry m r rs b)) with (BUS_WIDTH b) in Hfit. lia.
Qed.

(** X10: for a positive bus width every write of the loop, and the read
    that checks it, lies inside the store of
    [(SLAVE_REGION + 1) * BUS_WIDTH] bytes the test gave the slave: no
    offset of the loop makes [axil_ram.read] fail on the bounds. *)
Theorem loop_writes_fit_store (b : bench) (xs : list Z) (x : Z) :
  0 < BUS_WIDTH b ->
  range 4 (SLAVE_REGION b) (BUS_WIDTH b) = Ok xs -> x ∈ xs ->
  0 <= x /\ x + BUS_WIDTH b <= axil_ram_size b /\
  is_Some (mem_read (r_mem (new_AxiLiteRam (axil_ram_size b))) x
             (BUS_WIDTH b)).
Proof.
  intros Hw Hr Hx.
  destruct (range_positive_step _ _ _ _ _ Hw Hr Hx) as [[Hlo Hhi] _].
  assert (x + BUS_WIDTH b <= axil_ram_size b) as Hfit
    by (unfold axil_ram_size; nia).
  split; [lia|]. split; [exact Hfit|].
  apply mem_read_is_Some. cbn [r_mem new_AxiLiteRam mem_size]. lia.
Qed.

(** ** The further properties at work on the 64-byte, 4-byte-wide design *)

(** The last of the fifteen offsets of the loop is 60. *)
Lemma loop_offsets_exact_witness :
  exists xs, range 4 64 4 = Ok xs /\ xs !! 14%nat = Some 60 /\ 60 ∈ xs.
Proof.
  destruct (loop_offsets_exact (power_on 64 4096 4 quiet))
    as (xs & Hr & Hl & He).
  - reflexivity.
  - exists xs. split; [exact Hr|]. split.
    + apply Hl. split; reflexivity.
    + apply He. split; [|reflexivity]. split; [discriminate|reflexivity].
Defined.

(** The writes at offsets 4 and 8 do not overlap. *)
Lemma loop_writes_disjoint_witness : 4 + 4 <= 8 \/ 8 + 4 <= 4.
Proof.
  apply (loop_writes_disjoint (power_on 64 4096 4 quiet)
           [4; 8; 12; 16; 20; 24; 28; 32; 36; 40; 44; 48; 52; 56; 60] 4 8).
  - reflexivity.
  - vm_compute. reflexivity.
  - apply list_elem_of_here.
  - apply list_elem_of_further, list_elem_of_here.
  - discriminate.
Defined.

(** The payload of the last iteration. *)
Lemma payload_identifies_offset_witness :
  Z.of_nat (length [x3c; x00; x00; x00]) = 4 /\
  from_bytes [x3c; x00; x00; x00] = 60.
Proof.
  destruct (payload_identifies_offset (power_on 64 4096 4 quiet) 60 60
              [x3c; x00; x00; x00]) as (Hlen & Hval & _).
  - vm_compute. reflexivity.
  - split; [exact Hlen|exact Hval].
Defined.

(** The reset of a bench whose clock started at time 0. *)
Lemma reset_spans_hundred_edges_witness :
  rising_edges (set_arstn L0 (start_clock (power_on 64 4096 4 quiet))) 200
  = 100%nat.
Proof.
  destruct (reset_spans_hundred_edges
              (start_clock (power_on 64 4096 4 quiet)) 0) as (H & _).
  - reflexivity.
  - exact H.
Defined.

(** The write test from power-on: [arstn] low at 0, high at 200. *)
Lemma write_test_signals_witness :
  exists b',
    increment_test_write 3 (power_on 64 4096 4 quiet) = Ok b' /\
    arstn b' = L1 /\ arstn_log b' = [(200, L1); (0, L0)].
Proof.
  destruct (increment_test_write 3 (power_on 64 4096 4 quiet))
    as [b'|e] eqn:E.
  2:{ vm_compute in E. discriminate E. }
  destruct (write_test_signals increment_test_write 3
              (power_on 64 4096 4 quiet) b') as (Hrst & Hlog & _).
  - apply list_elem_of_here.
  - exact E.
  - exists b'. split; [reflexivity|]. split; [exact Hrst|exact Hlog].
Defined.

(** The test with the stalled W channel, on the tape of runs of three. *)
Lemma stalled_test_draws_witness :
  exists b',
    increment_test_random_ready_write_data 6 (power_on 64 4096 4 noisy)
    = Ok b' /\
    pos (random_state b') = 256%nat.
Proof.
  destruct (increment_test_random_ready_write_data 6
              (power_on 64 4096 4 noisy)) as [b'|e] eqn:E.
  2:{ vm_compute in E. discriminate E. }
  exists b'. split; [reflexivity|].
  rewrite (stalled_test_draws increment_test_random_ready_write_data 6
             (power_on 64 4096 4 noisy) b').
  - reflexivity.
  - apply list_elem_of_here.
  - exact E.
Defined.

(** A region of 4 bytes: the loop is empty, the test over at 200 ns. *)
Lemma empty_loop_passes_witness :
  exists b',
    increment_test_write 0 (power_on 4 4096 4 quiet) = Ok b' /\
    now b' = 200.
Proof.
  destruct (empty_loop_passes increment_test_write 0
              (power_on 4 4096 4 quiet)) as (b' & Hrun & Hnow & _).
  - apply list_elem_of_here.
  - reflexivity.
  - split; discriminate.
  - exists b'. split; [exact Hrun|exact Hnow].
Defined.

(** A region of 300 bytes on a bus of one byte: offset 256 has no
    encoding. *)
Lemma unencodable_offset_fails_witness :
  passed (increment_test_write 3 (power_on 300 4096 1 quiet)) = false.
Proof.
  apply (unencodable_offset_fails increment_test_write 3
           (power_on 300 4096 1 quiet) 256).
  - apply list_elem_of_here.
  - reflexivity.
  - split; [discriminate|reflexivity].
  - reflexivity.
  - discriminate.
Defined.

(** The write at offset 60 ends at byte 64 of the 260 of the store. *)
Lemma loop_writes_fit_store_witness :
  60 + 4 <= axil_ram_size (power_on 64 4096 4 quiet) /\
  is_Some (mem_read (r_mem (new_AxiLiteRam 260)) 60 4).
Proof.
  destruct (loop_writes_fit_store (power_on 64 4096 4 quiet)
              [4; 8; 12; 16; 20; 24; 28; 32; 36; 40; 44; 48; 52; 56; 60] 60)
    as (_ & Hfit & Hread).
  - reflexivity.
  - vm_compute. reflexivity.
  - do 14 apply list_elem_of_further. apply list_elem_of_here.
  - split; [exact Hfit|exact Hread].
Defined.
